(** * Colt front-end: type equality, expression equality and diagnostics

    A shallow embedding of the parts of the Colt compiler front-end that
    the specification makes claims about:

    - [Type::is_equal] and [Type::is_equal_with_const] (colt_type.cpp),
    - the expression classes of colt_expr.h and the structural
      [operator==] over them (colt_expr.cpp),
    - the error counter of [ASTMaker] and its reporting helpers
      [generate_any] / [generate_any_current] (colt_ast.h).

    Calls that have no defined result in C++ (a [static_cast] to the wrong
    class, an index past the end of a view, [colt_unreachable], a failed
    [assert_true]) are made explicit through the [outcome] type. *)

From Stdlib Require Import ZArith String List Bool Lia.
From stdpp Require Import base decidable option list numbers strings.

Local Open Scope Z_scope.

(** ** Outcomes of a call *)

Inductive failure : Set :=
| Unreachable          (* colt_unreachable(...) was executed *)
| AssertionFailed      (* assert_true(...) was given a false condition *)
| UndefinedBehaviour   (* downcast to the wrong class, or index out of range *)
| OutOfFuel.           (* the recursion bound of the model was exhausted *)

Inductive outcome (A : Type) : Type :=
| Returns (a : A)
| Fails (f : failure).

Arguments Returns {A} a.
Arguments Fails {A} f.

#[global] Instance outcome_ret : MRet outcome := fun A a => Returns a.
#[global] Instance outcome_bind : MBind outcome := fun A B k m =>
  match m with
  | Returns a => k a
  | Fails f => Fails f
  end.

#[global] Instance failure_eq_dec : EqDecision failure.
Proof. solve_decision. Defined.

#[global] Instance outcome_eq_dec {A} `{EqDecision A} : EqDecision (outcome A).
Proof. solve_decision. Defined.

(** ** Machine integers *)

Definition u8 := Z.
Definition u16 := Z.
Definition u32 := Z.
Definition u64 := Z.

(** [std::numeric_limits<u64>::max()] *)
Definition u64_max : u64 := 2 ^ 64 - 1.

(** [++x] on a [u16]: the value is incremented and reduced modulo 2^16. *)
Definition u16_incr (x : u16) : u16 := (x + 1) mod 2 ^ 16.

(** The raw 64 bits of a literal ([QWORD] is a union over the scalar kinds). *)
Definition QWORD := Z.

Definition StringView := string.

(** The enumerators of [UnaryOperator] and [BinaryOperator] are declared in
    colt_operators.h; an operator is represented by its enumerator value. *)
Definition UnaryOperator := N.
Definition BinaryOperator := N.

(** ** Types (colt_type.cpp) *)

Module ColtTypes.

(** The scalar kinds, one per [BuiltInType::Create*] factory. *)
Inductive BuiltInID : Set :=
| U8 | U16 | U32 | U64 | U128
| I8 | I16 | I32 | I64 | I128
| F32 | F64 | BOOL.

#[global] Instance BuiltInID_eq_dec : EqDecision BuiltInID.
Proof. solve_decision. Defined.

(** The tags [classof()] can return: the ones named in the [switch] of
    [Type::is_equal], and the tag of the error type tested by [is_error()]. *)
Inductive TypeID : Set :=
| TYPE_ERROR | TYPE_VOID | TYPE_BUILTIN | TYPE_PTR | TYPE_FN
| TYPE_ARRAY | TYPE_CLASS.

#[global] Instance TypeID_eq_dec : EqDecision TypeID.
Proof. solve_decision. Defined.

(** The class [Type] and its subclasses, one constructor per factory
    ([VoidType::CreateType], [BuiltInType::Create*], [PtrType::CreatePtr],
    [FnType::CreateFn], [ErrorType::CreateType]).  A type refers to its
    component types through handles to nodes that are never mutated, so a
    type is a finite tree. *)
#[warnings="-register-all"]
Inductive ColtType : Type :=
| VoidType
| BuiltInType (builtin_ID : BuiltInID) (is_const_v : bool)
              (valid_op : list BinaryOperator)
| PtrType (is_const_v : bool) (ptr_to : ColtType)
| FnType (return_type : ColtType) (args_type : list ColtType)
| ErrorType.

Definition classof (t : ColtType) : TypeID :=
  match t with
  | VoidType => TYPE_VOID
  | BuiltInType _ _ _ => TYPE_BUILTIN
  | PtrType _ _ => TYPE_PTR
  | FnType _ _ => TYPE_FN
  | ErrorType => TYPE_ERROR
  end.

Definition is_error (t : ColtType) : bool :=
  bool_decide (classof t = TYPE_ERROR).

(** [is_const()].  The factories of the void, function and error types take
    no const flag; their flag is the constant [false]. *)
Definition is_const (t : ColtType) : bool :=
  match t with
  | BuiltInType _ c _ => c
  | PtrType c _ => c
  | VoidType | FnType _ _ | ErrorType => false
  end.

(** [BuiltInType::supports]: linear scan of the supported operators. *)
Fixpoint supports_from (valid_op : list BinaryOperator) (op : BinaryOperator)
  : bool :=
  match valid_op with
  | [] => false
  | o :: rest => if bool_decide (o = op) then true else supports_from rest op
  end.

Definition supports (t : ColtType) (op : BinaryOperator) : outcome bool :=
  match t with
  | BuiltInType _ _ valid_op => Returns (supports_from valid_op op)
  | _ => Fails UndefinedBehaviour
  end.

(** [as<PTR<const BuiltInType>>(t)->get_builtin_id()].  [as] is a
    [static_cast]: on an object of another class the access has no defined
    result. *)
Definition get_builtin_id (t : ColtType) : outcome BuiltInID :=
  match t with
  | BuiltInType id _ _ => Returns id
  | _ => Fails UndefinedBehaviour
  end.

(** [as<PTR<const PtrType>>(t)->get_type_to()] *)
Definition get_type_to (t : ColtType) : outcome ColtType :=
  match t with
  | PtrType _ to => Returns to
  | _ => Fails UndefinedBehaviour
  end.

(** [as<PTR<const FnType>>(t)->get_return_type()] *)
Definition get_return_type (t : ColtType) : outcome ColtType :=
  match t with
  | FnType ret _ => Returns ret
  | _ => Fails UndefinedBehaviour
  end.

(** [as<PTR<const FnType>>(t)->get_params_type()] *)
Definition get_params_type (t : ColtType) : outcome (list ColtType) :=
  match t with
  | FnType _ params => Returns params
  | _ => Fails UndefinedBehaviour
  end.

(** [view[i]]: an index past the end has no defined result. *)
Definition at_index {A} (view : list A) (i : nat) : outcome A :=
  match view !! i with
  | Some x => Returns x
  | None => Fails UndefinedBehaviour
  end.

(** [Type::is_equal_with_const], over the [is_equal] it calls. *)
Definition is_equal_with_const_by
    (is_equal : ColtType -> ColtType -> outcome bool)
    (this type : ColtType) : outcome bool :=
  if negb (Bool.eqb (is_const this) (is_const type)) then Returns false
  else is_equal this type.

(** The [for] loop of the [TYPE_FN] case: [i] is the loop index and [todo]
    the number of iterations left ([a.get_size() - i]). *)
Fixpoint params_loop (is_equal : ColtType -> ColtType -> outcome bool)
    (a_params b_params : list ColtType) (i todo : nat) : outcome bool :=
  match todo with
  | O => Returns true
  | S todo' =>
      a_i ← at_index a_params i;
      b_i ← at_index b_params i;
      eq ← is_equal a_i b_i;
      if negb eq then Returns false
      else params_loop is_equal a_params b_params (S i) todo'
  end.

(** [Type::is_equal].  [this] is the receiver and [type] the argument; in
    each case [a] is read from [type] and [b] from [this], as in the source.
    The recursion runs through handles, alternating the roles of the two
    operands, so it is bounded by [fuel]. *)
Fixpoint is_equal_rec (fuel : nat) (this type : ColtType) : outcome bool :=
  match fuel with
  | O => Fails OutOfFuel
  | S fuel' =>
      if is_error this || is_error type then Returns true
      else
        match classof this with
        | TYPE_VOID => Returns true
        | TYPE_BUILTIN =>
            a_id ← get_builtin_id type;
            b_id ← get_builtin_id this;
            Returns (bool_decide (a_id = b_id))
        | TYPE_PTR =>
            a_to ← get_type_to type;
            b_to ← get_type_to this;
            is_equal_with_const_by (is_equal_rec fuel') a_to b_to
        | TYPE_FN =>
            a_ret ← get_return_type type;
            a_params ← get_params_type type;
            b_ret ← get_return_type this;
            b_params ← get_params_type this;
            ret_eq ← is_equal_rec fuel' a_ret b_ret;
            if negb ret_eq
               && negb (length a_params =? length b_params)%nat
            then Returns false
            else params_loop (is_equal_rec fuel') a_params b_params
                             0 (length a_params)
        | TYPE_ARRAY | TYPE_CLASS | TYPE_ERROR => Fails Unreachable
        end
  end.

(** The nesting depth of a type: a bound on the recursion of [is_equal]. *)
Fixpoint depth (t : ColtType) : nat :=
  match t with
  | VoidType | BuiltInType _ _ _ | ErrorType => 0
  | PtrType _ to => S (depth to)
  | FnType ret params =>
      S (Nat.max (depth ret) (list_max (map depth params)))
  end.

Definition is_equal (this type : ColtType) : outcome bool :=
  is_equal_rec (S (Nat.max (depth this) (depth type))) this type.

Definition is_equal_with_const (this type : ColtType) : outcome bool :=
  is_equal_with_const_by is_equal this type.

(** Two scalar types, as [BuiltInType::CreateU8(false, ctx)] and
    [BuiltInType::CreateF32(false, ctx)] build them; the supported operators
    play no part in the comparison of types. *)
Definition u8_t : ColtType := BuiltInType U8 false [].
Definition f32_t : ColtType := BuiltInType F32 false [].

End ColtTypes.

(** ** Expressions (colt_expr.h) *)

(** [Expr::ExprID] *)
Inductive ExprID : Set :=
| EXPR_BASE | EXPR_LITERAL | EXPR_UNARY | EXPR_BINARY | EXPR_CONVERT
| EXPR_VAR_DECL | EXPR_VAR_READ | EXPR_VAR_WRITE | EXPR_FN_DEF
| EXPR_FN_CALL | EXPR_FN_RETURN | EXPR_SCOPE | EXPR_CONDITION.

#[global] Instance ExprID_eq_dec : EqDecision ExprID.
Proof. solve_decision. Defined.

(** [PTR<Expr>]: a non-owning handle to a node owned by the context, or
    [nullptr].  Two handles are equal exactly when they designate the same
    node. *)
Definition PTR_Expr := option nat.
Definition nullptr : PTR_Expr := None.

Module LiteralExpr.
Record t := mk { value : QWORD }.
Definition classof_v := EXPR_LITERAL.
Definition get_value (e : t) : QWORD := value e.
#[global] Instance eq_dec : EqDecision t.
Proof. solve_decision. Defined.
End LiteralExpr.

Module UnaryExpr.
Record t := mk { operation : UnaryOperator; child : PTR_Expr }.
Definition classof_v := EXPR_UNARY.
Definition get_child (e : t) : PTR_Expr := child e.
Definition get_operation (e : t) : UnaryOperator := operation e.
#[global] Instance eq_dec : EqDecision t.
Proof. solve_decision. Defined.
End UnaryExpr.

Module BinaryExpr.
Record t := mk { lhs : PTR_Expr; operation : BinaryOperator; rhs : PTR_Expr }.
Definition classof_v := EXPR_BINARY.
Definition get_LHS (e : t) : PTR_Expr := lhs e.
Definition get_RHS (e : t) : PTR_Expr := rhs e.
Definition get_operation (e : t) : BinaryOperator := operation e.
#[global] Instance eq_dec : EqDecision t.
Proof. solve_decision. Defined.
End BinaryExpr.

Module ConvertExpr.
Record t := mk { to_convert : PTR_Expr }.
Definition classof_v := EXPR_CONVERT.
Definition get_child (e : t) : PTR_Expr := to_convert e.
#[global] Instance eq_dec : EqDecision t.
Proof. solve_decision. Defined.
End ConvertExpr.

Module VariableDeclExpr.
Record t := mk { is_global_v : bool; init_value : PTR_Expr; name : StringView }.
Definition classof_v := EXPR_VAR_DECL.
(** [VariableDeclExpr(name, init_value, is_global)] *)
Definition new (name : StringView) (init_value : PTR_Expr) (is_global : bool)
  : t := mk is_global init_value name.
Definition get_value (e : t) : PTR_Expr := init_value e.
Definition get_name (e : t) : StringView := name e.
Definition is_global (e : t) : bool := is_global_v e.
#[global] Instance eq_dec : EqDecision t.
Proof. solve_decision. Defined.
End VariableDeclExpr.

Module VariableReadExpr.
Record t := mk { local_ID : u64; name : StringView }.
Definition classof_v := EXPR_VAR_READ.
Definition get_name (e : t) : StringView := name e.
Definition is_global (e : t) : bool := bool_decide (local_ID e = u64_max).
(** [VariableReadExpr(name)]: a read from a global variable. *)
Definition new_global (name : StringView) : t := mk u64_max name.
(** [VariableReadExpr(name, local_ID)]: a read from a local variable; the
    constructor ends with [assert_true(!is_global(), ...)]. *)
Definition new_local (name : StringView) (local_ID : u64) : outcome t :=
  let e := mk local_ID name in
  if negb (is_global e) then Returns e else Fails AssertionFailed.
Definition get_local_ID (e : t) : outcome u64 :=
  if negb (is_global e) then Returns (local_ID e) else Fails AssertionFailed.
Definition unsafe_get_local_id (e : t) : u64 := local_ID e.
#[global] Instance eq_dec : EqDecision t.
Proof. solve_decision. Defined.
End VariableReadExpr.

Module VariableWriteExpr.
Record t := mk { local_ID : u64; value : PTR_Expr; name : StringView }.
Definition classof_v := EXPR_VAR_WRITE.
Definition get_value (e : t) : PTR_Expr := value e.
Definition get_name (e : t) : StringView := name e.
Definition is_global (e : t) : bool := bool_decide (local_ID e = u64_max).
(** [VariableWriteExpr(name, value)]: a write to a global variable. *)
Definition new_global (name : StringView) (value : PTR_Expr) : t :=
  mk u64_max value name.
(** [VariableWriteExpr(name, value, local_ID)]: a write to a local
    variable; the constructor ends with [assert_true(!is_global(), ...)]. *)
Definition new_local (name : StringView) (value : PTR_Expr) (local_ID : u64)
  : outcome t :=
  let e := mk local_ID value name in
  if negb (is_global e) then Returns e else Fails AssertionFailed.
Definition get_local_ID (e : t) : outcome u64 :=
  if negb (is_global e) then Returns (local_ID e) else Fails AssertionFailed.
Definition unsafe_get_local_id (e : t) : u64 := local_ID e.
#[global] Instance eq_dec : EqDecision t.
Proof. solve_decision. Defined.
End VariableWriteExpr.

Module FnReturnExpr.
Record t := mk { to_ret : PTR_Expr }.
Definition classof_v := EXPR_FN_RETURN.
Definition get_value (e : t) : PTR_Expr := to_ret e.
#[global] Instance eq_dec : EqDecision t.
Proof. solve_decision. Defined.
End FnReturnExpr.

Module FnDefExpr.
Record t := mk {
  body : PTR_Expr;
  arguments_name : list StringView;
  return_list : list PTR_Expr;
  name : StringView
}.
Definition classof_v := EXPR_FN_DEF.
(** [FnDefExpr(name, arguments_name, body = nullptr)] *)
Definition new (name : StringView) (arguments_name : list StringView)
    (body : PTR_Expr) : t := mk body arguments_name [] name.
Definition set_body (body_p : PTR_Expr) (e : t) : t :=
  mk body_p (arguments_name e) (return_list e) (name e).
Definition get_body (e : t) : PTR_Expr := body e.
Definition push_return (ret : PTR_Expr) (e : t) : t :=
  mk (body e) (arguments_name e) (return_list e ++ [ret]) (name e).
Definition get_return_list (e : t) : list PTR_Expr := return_list e.
Definition get_name (e : t) : StringView := name e.
Definition get_params_name (e : t) : list StringView := arguments_name e.
#[global] Instance eq_dec : EqDecision t.
Proof. solve_decision. Defined.
End FnDefExpr.

Module ScopeExpr.
Record t := mk { body_expr : list PTR_Expr }.
Definition classof_v := EXPR_SCOPE.
Definition set_body_array (body : list PTR_Expr) (e : t) : t := mk body.
Definition get_body_array (e : t) : list PTR_Expr := body_expr e.
#[global] Instance eq_dec : EqDecision t.
Proof. solve_decision. Defined.
End ScopeExpr.

Module ConditionExpr.
Record t := mk { if_cond : PTR_Expr; if_stmt : PTR_Expr; else_stmt : PTR_Expr }.
Definition classof_v := EXPR_CONDITION.
Definition get_if_condition (e : t) : PTR_Expr := if_cond e.
Definition get_if_statement (e : t) : PTR_Expr := if_stmt e.
Definition get_else_statement (e : t) : PTR_Expr := else_stmt e.
#[global] Instance eq_dec : EqDecision t.
Proof. solve_decision. Defined.
End ConditionExpr.

(** An object of class [Expr]: one of the final subclasses, or an object
    built with the public base constructor [Expr(ExprID)], which carries a
    tag and nothing else. *)
Inductive Expr : Type :=
| Bare (ID : ExprID)
| Literal (e : LiteralExpr.t)
| Unary (e : UnaryExpr.t)
| Binary (e : BinaryExpr.t)
| Convert (e : ConvertExpr.t)
| VarDecl (e : VariableDeclExpr.t)
| VarRead (e : VariableReadExpr.t)
| VarWrite (e : VariableWriteExpr.t)
| FnReturn (e : FnReturnExpr.t)
| FnDef (e : FnDefExpr.t)
| Scope (e : ScopeExpr.t)
| Condition (e : ConditionExpr.t).

#[global] Instance Expr_eq_dec : EqDecision Expr.
Proof. solve_decision. Defined.

(** [Expr::classof()]: the tag stored by the constructor. *)
Definition classof (e : Expr) : ExprID :=
  match e with
  | Bare ID => ID
  | Literal _ => LiteralExpr.classof_v
  | Unary _ => UnaryExpr.classof_v
  | Binary _ => BinaryExpr.classof_v
  | Convert _ => ConvertExpr.classof_v
  | VarDecl _ => VariableDeclExpr.classof_v
  | VarRead _ => VariableReadExpr.classof_v
  | VarWrite _ => VariableWriteExpr.classof_v
  | FnReturn _ => FnReturnExpr.classof_v
  | FnDef _ => FnDefExpr.classof_v
  | Scope _ => ScopeExpr.classof_v
  | Condition _ => ConditionExpr.classof_v
  end.

(** [static_cast<const C*>(&e)]: defined only on an object of class [C]. *)
Definition static_cast_Unary (e : Expr) : outcome UnaryExpr.t :=
  match e with Unary p => Returns p | _ => Fails UndefinedBehaviour end.
Definition static_cast_Binary (e : Expr) : outcome BinaryExpr.t :=
  match e with Binary p => Returns p | _ => Fails UndefinedBehaviour end.
Definition static_cast_Convert (e : Expr) : outcome ConvertExpr.t :=
  match e with Convert p => Returns p | _ => Fails UndefinedBehaviour end.
Definition static_cast_VarDecl (e : Expr) : outcome VariableDeclExpr.t :=
  match e with VarDecl p => Returns p | _ => Fails UndefinedBehaviour end.
Definition static_cast_VarRead (e : Expr) : outcome VariableReadExpr.t :=
  match e with VarRead p => Returns p | _ => Fails UndefinedBehaviour end.
Definition static_cast_VarWrite (e : Expr) : outcome VariableWriteExpr.t :=
  match e with VarWrite p => Returns p | _ => Fails UndefinedBehaviour end.
Definition static_cast_Condition (e : Expr) : outcome ConditionExpr.t :=
  match e with Condition p => Returns p | _ => Fails UndefinedBehaviour end.
Definition static_cast_FnReturn (e : Expr) : outcome FnReturnExpr.t :=
  match e with FnReturn p => Returns p | _ => Fails UndefinedBehaviour end.

(** [a == b] on two scalars, handles or string views. *)
Definition eqb_of {A} `{EqDecision A} (a b : A) : bool := bool_decide (a = b).
Infix "==?" := eqb_of (at level 70, no associativity).

(** [operator==(const Expr&, const Expr&)] (colt_expr.cpp).  The children
    returned by [get_child()], [get_LHS()], ... are handles, compared as
    handles.  The [EXPR_SCOPE] case has no [return] and falls through to the
    [default] label. *)
Definition operator_eq (lhs rhs : Expr) : outcome bool :=
  if negb (classof lhs ==? classof rhs) then Returns false
  else
    match classof lhs with
    | EXPR_LITERAL => Returns false
    | EXPR_UNARY =>
        lhs_p ← static_cast_Unary lhs;
        rhs_p ← static_cast_Unary rhs;
        Returns ((UnaryExpr.get_operation lhs_p ==? UnaryExpr.get_operation rhs_p)
                 && (UnaryExpr.get_child lhs_p ==? UnaryExpr.get_child rhs_p))
    | EXPR_BINARY =>
        lhs_p ← static_cast_Binary lhs;
        rhs_p ← static_cast_Binary rhs;
        Returns ((BinaryExpr.get_operation lhs_p ==? BinaryExpr.get_operation rhs_p)
                 && (BinaryExpr.get_LHS lhs_p ==? BinaryExpr.get_LHS rhs_p)
                 && (BinaryExpr.get_RHS lhs_p ==? BinaryExpr.get_RHS rhs_p))
    | EXPR_CONVERT =>
        lhs_p ← static_cast_Convert lhs;
        rhs_p ← static_cast_Convert rhs;
        Returns (ConvertExpr.get_child lhs_p ==? ConvertExpr.get_child rhs_p)
    | EXPR_VAR_DECL =>
        lhs_p ← static_cast_VarDecl lhs;
        rhs_p ← static_cast_VarDecl rhs;
        Returns ((VariableDeclExpr.get_name lhs_p ==? VariableDeclExpr.get_name rhs_p)
                 && (VariableDeclExpr.is_global lhs_p ==? VariableDeclExpr.is_global rhs_p)
                 && (VariableDeclExpr.get_value lhs_p ==? VariableDeclExpr.get_value rhs_p))
    | EXPR_VAR_READ =>
        lhs_p ← static_cast_VarRead lhs;
        rhs_p ← static_cast_VarRead rhs;
        Returns ((VariableReadExpr.get_name lhs_p ==? VariableReadExpr.get_name rhs_p)
                 && (VariableReadExpr.unsafe_get_local_id lhs_p
                     ==? VariableReadExpr.unsafe_get_local_id rhs_p))
    | EXPR_VAR_WRITE =>
        lhs_p ← static_cast_VarWrite lhs;
        rhs_p ← static_cast_VarWrite rhs;
        Returns ((VariableWriteExpr.get_name lhs_p ==? VariableWriteExpr.get_name rhs_p)
                 && (VariableWriteExpr.unsafe_get_local_id lhs_p
                     ==? VariableWriteExpr.unsafe_get_local_id rhs_p)
                 && (VariableWriteExpr.get_value lhs_p ==? VariableWriteExpr.get_value rhs_p))
    | EXPR_FN_DEF => Returns false
    | EXPR_CONDITION =>
        lhs_p ← static_cast_Condition lhs;
        rhs_p ← static_cast_Condition rhs;
        Returns ((ConditionExpr.get_if_condition lhs_p ==? ConditionExpr.get_if_condition rhs_p)
                 && (ConditionExpr.get_if_statement lhs_p ==? ConditionExpr.get_if_statement rhs_p)
                 && (ConditionExpr.get_else_statement lhs_p
                     ==? ConditionExpr.get_else_statement rhs_p))
    | EXPR_FN_RETURN =>
        lhs_p ← static_cast_FnReturn lhs;
        rhs_p ← static_cast_FnReturn rhs;
        Returns (FnReturnExpr.get_value lhs_p ==? FnReturnExpr.get_value rhs_p)
    | EXPR_SCOPE
    | EXPR_FN_CALL
    | EXPR_BASE => Fails Unreachable
    end.

(** ** The context (arena of expression nodes) *)

(** Modelled from the spec: colt_context.h is not among the sources.  The
    context owns every expression node; [add_expr] takes a freshly built node
    and returns a stable handle to it; no node is moved or freed afterwards.
    A handle is the position of the node in allocation order. *)
Record COLTContext := mkContext { exprs : list Expr }.

Definition add_expr (node : Expr) (ctx : COLTContext) : PTR_Expr * COLTContext :=
  (Some (length (exprs ctx)), mkContext (exprs ctx ++ [node])).

(** [*p] for a handle [p] of the context. *)
Definition deref (ctx : COLTContext) (p : PTR_Expr) : option Expr :=
  match p with
  | Some h => exprs ctx !! h
  | None => None
  end.

(** [LiteralExpr::CreateExpr(value, ctx)] *)
Definition LiteralExpr_CreateExpr (value : QWORD) (ctx : COLTContext)
  : PTR_Expr * COLTContext :=
  add_expr (Literal (LiteralExpr.mk value)) ctx.

(** A literal that carries the raw value 7. *)
Definition literal_7 : Expr := Literal (LiteralExpr.mk 7).

(** The context after two literals of value 1 were allocated one after the
    other. *)
Definition two_literals : COLTContext :=
  let '(_, ctx1) := LiteralExpr_CreateExpr 1 (mkContext []) in
  let '(_, ctx2) := LiteralExpr_CreateExpr 1 ctx1 in
  ctx2.

(** [ScopeExpr::CreateExpr(body, ctx)] *)
Definition ScopeExpr_CreateExpr (body : list PTR_Expr) (ctx : COLTContext)
  : PTR_Expr * COLTContext :=
  add_expr (Scope (ScopeExpr.mk body)) ctx.

(** [operator==(const UniquePtr<Expr>&, const UniquePtr<Expr>&)]: asserts
    that both pointers are non-null and compares the nodes. *)
Definition operator_eq_ptr (ctx : COLTContext) (lhs rhs : PTR_Expr)
  : outcome bool :=
  match deref ctx lhs, deref ctx rhs with
  | Some l, Some r => operator_eq l r
  | _, _ => Fails AssertionFailed
  end.

(** ** The AST builder (colt_ast.h) *)

Module ASTBuilder.

(** Modelled from the spec: the [Token] enumeration is declared in the
    lexer's header, which is not among the sources.  A token is a
    binary-operator token, one of the delimiters and markers named in
    colt_ast.h, main.cpp and the specification, or any other token
    (keyword, identifier, literal, ...). *)
Inductive Token : Set :=
| TKN_OPERATOR (op : BinaryOperator)
| TKN_COMMA | TKN_SEMICOLON | TKN_EOF | TKN_ERROR
| TKN_LEFT_PAREN | TKN_RIGHT_PAREN
| TKN_COLON | TKN_LEFT_CURLY
| TKN_PLUS_PLUS | TKN_MINUS_MINUS
| TKN_OTHER (kind : N).

#[global] Instance Token_eq_dec : EqDecision Token.
Proof. solve_decision. Defined.

(** [SourceCodeExprInfo], as built by [generate_any_current]. *)
Record SourceCodeExprInfo := mkSrcInfo {
  line_begin : Z;
  line_end : Z;
  lines : StringView;
  expression : StringView
}.

(** Modelled from the spec: the lexer is not among the sources.  It holds
    the tokens still to be produced and the position used for diagnostics;
    [get_next_token] produces the tokens in order and keeps returning the
    end-of-input token once they are exhausted. *)
Record Lexer := mkLexer {
  pending : list Token;
  line_nb : Z;
  line_strv : StringView;
  current_lexeme : StringView
}.

Definition get_next_token (lex : Lexer) : Token * Lexer :=
  match pending lex with
  | [] => (TKN_EOF, lex)
  | tkn :: rest =>
      (tkn, mkLexer rest (line_nb lex) (line_strv lex) (current_lexeme lex))
  end.

(** [ASTMaker::report_as] *)
Inductive report_as : Set := ERROR | WARNING | MESSAGE.

(** One call of [GenerateError], [GenerateWarning] or [GenerateMessage]. *)
Record Diagnostic := mkDiagnostic {
  severity : report_as;
  src_info : SourceCodeExprInfo;
  text : string
}.

(** The members of [ASTMaker] that the modelled methods read or write, and
    the diagnostics printed so far. *)
Record ASTMaker := mkASTMaker {
  expressions : list PTR_Expr;
  error_count : u16;
  warn_count : u16;
  lexer : Lexer;
  current_tkn : Token;
  local_var_table : list (StringView * ColtTypes.ColtType);
  printed : list Diagnostic
}.

Definition get_error_count (s : ASTMaker) : u16 := error_count s.
Definition get_warn_count (s : ASTMaker) : u16 := warn_count s.
Definition get_result (s : ASTMaker) : list PTR_Expr := expressions s.
Definition steal_result (s : ASTMaker) : list PTR_Expr := expressions s.
Definition is_empty (s : ASTMaker) : bool := (length (expressions s) =? 0)%nat.

Definition with_tokens (s : ASTMaker) (tkn : Token) (lex : Lexer) : ASTMaker :=
  mkASTMaker (expressions s) (error_count s) (warn_count s) lex tkn
             (local_var_table s) (printed s).

Definition with_warn_count (w : u16) (s : ASTMaker) : ASTMaker :=
  mkASTMaker (expressions s) (error_count s) w (lexer s) (current_tkn s)
             (local_var_table s) (printed s).

(** Modelled from the spec: [consume_current_tkn] updates [current_tkn] to
    the next token of the lexer. *)
Definition consume_current_tkn (s : ASTMaker) : ASTMaker :=
  let '(tkn, lex) := get_next_token (lexer s) in with_tokens s tkn lex.

Definition is_valid_scope_begin (s : ASTMaker) : bool :=
  (current_tkn s ==? TKN_COLON) || (current_tkn s ==? TKN_LEFT_CURLY).

Definition is_valid_post_unary (s : ASTMaker) : bool :=
  (current_tkn s ==? TKN_PLUS_PLUS) || (current_tkn s ==? TKN_MINUS_MINUS).

(** Modelled from the spec: the panic methods are declared in colt_ast.h and
    defined elsewhere.  After a report the builder skips tokens up to a
    recovery point: tokens are consumed until the current token satisfies
    [stop] (the end-of-input token always does). *)
Fixpoint skip_until (stop : Token -> bool) (cur : Token) (rest : list Token)
  : Token * list Token :=
  if stop cur || (cur ==? TKN_EOF) then (cur, rest)
  else
    match rest with
    | [] => (TKN_EOF, [])
    | tkn :: rest' => skip_until stop tkn rest'
    end.

Definition panic_consume (stop : Token -> bool) (s : ASTMaker) : ASTMaker :=
  let lex := lexer s in
  let '(tkn, rest) := skip_until stop (current_tkn s) (pending lex) in
  with_tokens s tkn
    (mkLexer rest (line_nb lex) (line_strv lex) (current_lexeme lex)).

(** Modelled from the spec: consumes all tokens till a [TKN_SEMICOLON] or
    [TKN_EOF] is hit. *)
Definition panic_consume_semicolon : ASTMaker -> ASTMaker :=
  panic_consume (fun tkn => tkn ==? TKN_SEMICOLON).

(** Modelled from the spec: consumes all tokens till a [TKN_SEMICOLON],
    [TKN_EOF] or a valid scope beginning is hit. *)
Definition panic_consume_fn_decl : ASTMaker -> ASTMaker :=
  panic_consume (fun tkn =>
    (tkn ==? TKN_SEMICOLON) || (tkn ==? TKN_COLON) || (tkn ==? TKN_LEFT_CURLY)).

(** Modelled from the spec: consumes all tokens till a [TKN_RIGHT_PAREN] or
    [TKN_EOF] is hit. *)
Definition panic_consume_rparen : ASTMaker -> ASTMaker :=
  panic_consume (fun tkn => tkn ==? TKN_RIGHT_PAREN).

(** [panic_consume_t], a pointer to a method of [ASTMaker] that takes no
    argument and returns nothing: a null pointer, or a pointer to one of the
    methods of [ASTMaker] of that type. *)
Inductive panic_consume_t : Set :=
| null_method
| ptr_consume_current_tkn
| ptr_panic_consume_semicolon
| ptr_panic_consume_fn_decl
| ptr_panic_consume_rparen.

(** The call of the panic method, when [panic_c] is not null. *)
Definition call_panic (panic_c : panic_consume_t) (s : ASTMaker) : ASTMaker :=
  match panic_c with
  | null_method => s
  | ptr_consume_current_tkn => consume_current_tkn s
  | ptr_panic_consume_semicolon => panic_consume_semicolon s
  | ptr_panic_consume_fn_decl => panic_consume_fn_decl s
  | ptr_panic_consume_rparen => panic_consume_rparen s
  end.

(** The effect of [GenerateError], [GenerateWarning], [GenerateMessage]. *)
Definition print_diagnostic (d : Diagnostic) (s : ASTMaker) : ASTMaker :=
  mkASTMaker (expressions s) (error_count s) (warn_count s) (lexer s)
             (current_tkn s) (local_var_table s) (printed s ++ [d]).

(** [++error_count] *)
Definition incr_error_count (s : ASTMaker) : ASTMaker :=
  mkASTMaker (expressions s) (u16_incr (error_count s)) (warn_count s)
             (lexer s) (current_tkn s) (local_var_table s) (printed s).

(** The [if constexpr] chain shared by [generate_any] and
    [generate_any_current]. *)
Definition report (as_ : report_as) (info : SourceCodeExprInfo) (msg : string)
    (s : ASTMaker) : ASTMaker :=
  match as_ with
  | ERROR => incr_error_count (print_diagnostic (mkDiagnostic ERROR info msg) s)
  | WARNING => print_diagnostic (mkDiagnostic WARNING info msg) s
  | MESSAGE => print_diagnostic (mkDiagnostic MESSAGE info msg) s
  end.

(** [ASTMaker::generate_any<as>(src_info, panic_c, fmt, args...)]; [msg] is
    the formatted message. *)
Definition generate_any (as_ : report_as) (info : SourceCodeExprInfo)
    (panic_c : panic_consume_t) (msg : string) (s : ASTMaker) : ASTMaker :=
  call_panic panic_c (report as_ info msg s).

(** [ASTMaker::generate_any_current<as>(panic_c, fmt, args...)] *)
Definition generate_any_current (as_ : report_as) (panic_c : panic_consume_t)
    (msg : string) (s : ASTMaker) : ASTMaker :=
  let info := lexer s in
  let src_info :=
    mkSrcInfo (line_nb info) (line_nb info) (line_strv info)
              (current_lexeme info) in
  call_panic panic_c (report as_ src_info msg s).

(** [ASTMaker::check_and_consume(expected, panic, fmt, args...)]: returns
    true if the token was invalid. *)
Definition check_and_consume_with (expected : Token) (panic : panic_consume_t)
    (msg : string) (s : ASTMaker) : bool * ASTMaker :=
  if current_tkn s ==? expected then (false, consume_current_tkn s)
  else (true, generate_any_current ERROR panic msg s).

(** [ASTMaker::check_and_consume(expected, fmt, args...)] *)
Definition check_and_consume (expected : Token) (msg : string) (s : ASTMaker)
  : bool * ASTMaker :=
  if current_tkn s ==? expected then (false, consume_current_tkn s)
  else (true, generate_any_current ERROR ptr_panic_consume_semicolon msg s).

(** The number of diagnostics of severity [ERROR] among those printed. *)
Fixpoint count_errors (ds : list Diagnostic) : nat :=
  match ds with
  | [] => 0
  | d :: rest =>
      match severity d with
      | ERROR => S (count_errors rest)
      | WARNING | MESSAGE => count_errors rest
      end
  end.

(** The error counter agrees with the diagnostics printed so far, up to the
    width of the counter. *)
Definition counts_errors (s : ASTMaker) : Prop :=
  error_count s = Z.of_nat (count_errors (printed s)) mod 2 ^ 16.

(** The state of a builder that has reported nothing yet. *)
Definition fresh_builder (lex : Lexer) (tkn : Token) : ASTMaker :=
  mkASTMaker [] 0 0 lex tkn [] [].

(** A builder whose error count has reached the largest [u16]. *)
Definition builder_at_max : ASTMaker :=
  mkASTMaker [] (2 ^ 16 - 1) 0 (mkLexer [] 1 "" "") TKN_EOF [] [].

(** [struct AST] *)
Record AST := mkAST {
  ast_expressions : list PTR_Expr;
  ast_ctx : COLTContext
}.

(** [Expected<T, E>]: the expected value or the error. *)
Inductive Expected (T E : Type) : Type :=
| Value (v : T)
| Error (e : E).

Arguments Value {T E} v.
Arguments Error {T E} e.

Definition is_expected {T E} (r : Expected T E) : bool :=
  match r with
  | Value _ => true
  | Error _ => false
  end.

(** Modelled from the spec: only the declaration of [CreateAST] is among the
    sources, and the parsing methods of [ASTMaker] are not.  [CreateAST]
    runs the builder over the input ([parse], the constructor of [ASTMaker],
    which also fills the context) and returns the AST (the top-level
    expressions and the owning context) on zero errors, or the accumulated
    error count. *)
Definition CreateAST
    (parse : StringView -> COLTContext -> ASTMaker * COLTContext)
    (from : StringView) (ctx : COLTContext) : Expected AST u32 :=
  let '(ast, ctx') := parse from ctx in
  if get_error_count ast =? 0 then Value (mkAST (steal_result ast) ctx')
  else Error (get_error_count ast).

End ASTBuilder.

(** ** Factories of the built-in types (colt_type.cpp) *)

Module ColtTypeFactories.
Import ColtTypes.

Section Factories.

(** [BuiltInType::IntegralSupported], [BuiltInType::FloatingSupported] and
    [BuiltInType::BoolSupported]: the three arrays of supported operators are
    declared in colt_type.h. *)
Variables IntegralSupported FloatingSupported BoolSupported
  : list BinaryOperator.

Definition CreateU8 (is_const : bool) : ColtType :=
  BuiltInType U8 is_const IntegralSupported.
Definition CreateU16 (is_const : bool) : ColtType :=
  BuiltInType U16 is_const IntegralSupported.
Definition CreateU32 (is_const : bool) : ColtType :=
  BuiltInType U32 is_const IntegralSupported.
Definition CreateU64 (is_const : bool) : ColtType :=
  BuiltInType U64 is_const IntegralSupported.
Definition CreateU128 (is_const : bool) : ColtType :=
  BuiltInType U128 is_const IntegralSupported.
Definition CreateI8 (is_const : bool) : ColtType :=
  BuiltInType I8 is_const IntegralSupported.
Definition CreateI16 (is_const : bool) : ColtType :=
  BuiltInType I16 is_const IntegralSupported.
Definition CreateI32 (is_const : bool) : ColtType :=
  BuiltInType I32 is_const IntegralSupported.
Definition CreateI64 (is_const : bool) : ColtType :=
  BuiltInType I64 is_const IntegralSupported.
Definition CreateI128 (is_const : bool) : ColtType :=
  BuiltInType I128 is_const IntegralSupported.
Definition CreateF32 (is_const : bool) : ColtType :=
  BuiltInType F32 is_const FloatingSupported.
Definition CreateF64 (is_const : bool) : ColtType :=
  BuiltInType F64 is_const FloatingSupported.
Definition CreateBool (is_const : bool) : ColtType :=
  BuiltInType BOOL is_const BoolSupported.

(** The factory of a scalar kind. *)
Definition factory_of (id : BuiltInID) : bool -> ColtType :=
  match id with
  | U8 => CreateU8 | U16 => CreateU16 | U32 => CreateU32 | U64 => CreateU64
  | U128 => CreateU128
  | I8 => CreateI8 | I16 => CreateI16 | I32 => CreateI32 | I64 => CreateI64
  | I128 => CreateI128
  | F32 => CreateF32 | F64 => CreateF64
  | BOOL => CreateBool
  end.

(** The array a factory passes to the constructor. *)
Definition supported_by (id : BuiltInID) : list BinaryOperator :=
  match id with
  | U8 | U16 | U32 | U64 | U128 | I8 | I16 | I32 | I64 | I128 =>
      IntegralSupported
  | F32 | F64 => FloatingSupported
  | BOOL => BoolSupported
  end.

End Factories.

(** [PtrType::CreatePtr(is_const, ptr_to, ctx)] *)
Definition CreatePtr (is_const : bool) (ptr_to : ColtType) : ColtType :=
  PtrType is_const ptr_to.

(** [FnType::CreateFn(return_type, args_type, ctx)] *)
Definition CreateFn (return_type : ColtType) (args_type : list ColtType)
  : ColtType := FnType return_type args_type.

(** Two types have the same shape when, position by position, they are of
    the same class and function types have as many parameters; the error
    type has the shape of every type. *)
Fixpoint same_shape (a b : ColtType) {struct a} : bool :=
  match a, b with
  | ErrorType, _ | _, ErrorType => true
  | VoidType, VoidType => true
  | BuiltInType _ _ _, BuiltInType _ _ _ => true
  | PtrType _ a_to, PtrType _ b_to => same_shape a_to b_to
  | FnType a_ret a_params, FnType b_ret b_params =>
      same_shape a_ret b_ret
      && (fix same_shapes (xs ys : list ColtType) {struct xs} : bool :=
            match xs, ys with
            | [], [] => true
            | x :: xs', y :: ys' => same_shape x y && same_shapes xs' ys'
            | _, _ => false
            end) a_params b_params
  | _, _ => false
  end.

(** Parameter lists of the same shape: as long as each other, and of the same
    shape position by position. *)
Fixpoint same_shapes (xs ys : list ColtType) {struct xs} : bool :=
  match xs, ys with
  | [], [] => true
  | x :: xs', y :: ys' => same_shape x y && same_shapes xs' ys'
  | _, _ => false
  end.

(** [fn(u8, ptr to const f32) -> u8] and [fn(f32, ptr to u8) -> f32]. *)
Definition fn_sample_a : ColtType :=
  FnType u8_t [u8_t; PtrType false (BuiltInType F32 true [])].
Definition fn_sample_b : ColtType :=
  FnType f32_t [f32_t; PtrType false u8_t].

End ColtTypeFactories.

(** ** Hashing of expressions (colt_expr.cpp) *)

Module ExprHash.

(** [GetHash] over the types of the fields, and [HashCombine]: the hashing
    primitives of the support library. *)
Record HashPrimitives := mkHashPrimitives {
  GetHash_u64 : u64 -> Z;
  GetHash_unary : UnaryOperator -> Z;
  GetHash_binary : BinaryOperator -> Z;
  GetHash_ptr : PTR_Expr -> Z;
  GetHash_strv : StringView -> Z;
  GetHash_bool : bool -> Z;
  HashCombine : Z -> Z -> Z
}.

Definition static_cast_Literal (e : Expr) : outcome LiteralExpr.t :=
  match e with Literal p => Returns p | _ => Fails UndefinedBehaviour end.

(** [colt::hash(const lang::Expr&)] *)
Definition hash (H : HashPrimitives) (expr : Expr) : outcome Z :=
  match classof expr with
  | EXPR_LITERAL =>
      p ← static_cast_Literal expr;
      Returns (GetHash_u64 H (LiteralExpr.get_value p))
  | EXPR_UNARY =>
      lhs_p ← static_cast_Unary expr;
      Returns (HashCombine H (GetHash_unary H (UnaryExpr.get_operation lhs_p))
                             (GetHash_ptr H (UnaryExpr.get_child lhs_p)))
  | EXPR_BINARY =>
      lhs_p ← static_cast_Binary expr;
      Returns (HashCombine H (GetHash_binary H (BinaryExpr.get_operation lhs_p))
                 (HashCombine H (GetHash_ptr H (BinaryExpr.get_LHS lhs_p))
                                (GetHash_ptr H (BinaryExpr.get_RHS lhs_p))))
  | EXPR_CONVERT =>
      lhs_p ← static_cast_Convert expr;
      Returns (GetHash_ptr H (ConvertExpr.get_child lhs_p))
  | EXPR_VAR_DECL =>
      lhs_p ← static_cast_VarDecl expr;
      Returns (HashCombine H (GetHash_strv H (VariableDeclExpr.get_name lhs_p))
                 (HashCombine H (GetHash_bool H (VariableDeclExpr.is_global lhs_p))
                                (GetHash_ptr H (VariableDeclExpr.get_value lhs_p))))
  | EXPR_VAR_READ =>
      lhs_p ← static_cast_VarRead expr;
      Returns (HashCombine H (GetHash_strv H (VariableReadExpr.get_name lhs_p))
                 (GetHash_u64 H (VariableReadExpr.unsafe_get_local_id lhs_p)))
  | EXPR_VAR_WRITE =>
      lhs_p ← static_cast_VarWrite expr;
      Returns (HashCombine H (GetHash_strv H (VariableWriteExpr.get_name lhs_p))
                 (HashCombine H
                    (GetHash_u64 H (VariableWriteExpr.unsafe_get_local_id lhs_p))
                    (GetHash_ptr H (VariableWriteExpr.get_value lhs_p))))
  | EXPR_FN_DEF => Returns 0
  | EXPR_CONDITION =>
      lhs_p ← static_cast_Condition expr;
      Returns (HashCombine H (GetHash_ptr H (ConditionExpr.get_if_condition lhs_p))
                 (HashCombine H (GetHash_ptr H (ConditionExpr.get_if_statement lhs_p))
                                (GetHash_ptr H (ConditionExpr.get_else_statement lhs_p))))
  | EXPR_FN_RETURN =>
      lhs_p ← static_cast_FnReturn expr;
      Returns (GetHash_ptr H (FnReturnExpr.get_value lhs_p))
  | EXPR_SCOPE => Returns 0
  | EXPR_FN_CALL
  | EXPR_BASE => Fails Unreachable
  end.

(** An object built with the base constructor alone. *)
Definition is_bare (e : Expr) : bool :=
  match e with
  | Bare _ => true
  | _ => false
  end.

(** The classes whose case of [operator==] compares the fields. *)
Definition compares_fields (e : Expr) : bool :=
  match e with
  | Unary _ | Binary _ | Convert _ | VarDecl _ | VarRead _ | VarWrite _
  | Condition _ | FnReturn _ => true
  | Bare _ | Literal _ | FnDef _ | Scope _ => false
  end.

(** The tags routed to [colt_unreachable] by [operator==]. *)
Definition unreachable_tag (ID : ExprID) : bool :=
  match ID with
  | EXPR_SCOPE | EXPR_FN_CALL | EXPR_BASE => true
  | _ => false
  end.

End ExprHash.

(** ** Parenthesised parsing (colt_ast.h) *)

Module ASTParsing.
Import ASTBuilder.

(** [ASTMaker::parse_parenthesis(method_ptr, args...)]: [method_ptr] is the
    parsing method applied to its arguments; it returns its result and the
    state it leaves.  The same body serves the case where the method returns
    nothing. *)
Definition parse_parenthesis {RetT : Type}
    (method_ptr : ASTMaker -> RetT * ASTMaker) (s : ASTMaker)
  : RetT * ASTMaker :=
  let info := lexer s in
  let lexeme_info :=
    mkSrcInfo (line_nb info) (line_nb info) (line_strv info)
              (current_lexeme info) in
  let '(_, s1) := check_and_consume TKN_LEFT_PAREN "Expected a '('!" s in
  let '(to_ret, s2) := method_ptr s1 in
  if negb (current_tkn s2 ==? TKN_RIGHT_PAREN)
  then (to_ret,
        generate_any ERROR lexeme_info ptr_panic_consume_semicolon
                     "Unclosed parenthesis delimiter!" s2)
  else (to_ret, consume_current_tkn s2).

(** One call of [generate_any]. *)
Record Report := mkReport {
  rep_as : report_as;
  rep_info : SourceCodeExprInfo;
  rep_panic : panic_consume_t;
  rep_msg : string
}.

(** A sequence of calls of [generate_any], in order. *)
Fixpoint generate_all (reports : list Report) (s : ASTMaker) : ASTMaker :=
  match reports with
  | [] => s
  | r :: rest =>
      generate_all rest
        (generate_any (rep_as r) (rep_info r) (rep_panic r) (rep_msg r) s)
  end.

(** An error report that consumes no token. *)
Definition error_report : Report :=
  mkReport ERROR (mkSrcInfo 1 1 "" "") null_method "error".

(** A warning report that consumes no token. *)
Definition warning_report : Report :=
  mkReport WARNING (mkSrcInfo 1 1 "" "") null_method "warning".

(** Modelled from the spec: the parsing methods of [ASTMaker] are not among
    the sources.  A run of the builder over an input, seen through the
    diagnostics it reports: the builder starts with both counters at zero,
    makes the reports of the run in order, and leaves the top-level
    expressions [exprs] in its result. *)
Definition reporting_run (reports : list Report) (exprs : list PTR_Expr)
    (from : StringView) (ctx : COLTContext) : ASTMaker * COLTContext :=
  let s := generate_all reports (fresh_builder (mkLexer [] 1 from "") TKN_EOF) in
  (mkASTMaker exprs (error_count s) (warn_count s) (lexer s) (current_tkn s)
              (local_var_table s) (printed s), ctx).

(** The number of reports of severity [ERROR]. *)
Fixpoint count_error_reports (reports : list Report) : nat :=
  match reports with
  | [] => 0
  | r :: rest =>
      match rep_as r with
      | ERROR => S (count_error_reports rest)
      | WARNING | MESSAGE => count_error_reports rest
      end
  end.

End ASTParsing.

(** ** Command line arguments (colt_args.h) *)

Module Args.

(** The callbacks of the predefined arguments. *)
Inductive ARG_CALLBACK : Set :=
| version_callback | help_callback | enum_callback | print_ir_callback
| no_color_callback | no_error_callback | no_warning_callback
| no_message_callback | out_callback | no_wait_callback
| o0_callback | o1_callback | o2_callback | o3_callback | os_callback
| oz_callback | run_main_callback.

#[global] Instance ARG_CALLBACK_eq_dec : EqDecision ARG_CALLBACK.
Proof. solve_decision. Defined.

(** [details::Argument] *)
Record Argument := mkArgument {
  name : StringView;
  abrv : StringView;
  help : StringView;
  nb_of_args : nat;
  callback : ARG_CALLBACK
}.

(** [details::PredefinedArguments] *)
Definition PredefinedArguments : list Argument := [
  mkArgument "version" "v" "Prints the version of the compiler.
Use: --version/-v" 0 version_callback;
  mkArgument "help" "h" "Prints the documentation of a command.
Use: --help/-h <COMMAND>" 1 help_callback;
  mkArgument "enum" "e" "Enumerates all possible commands.
Use: --enum/-e" 0 enum_callback;
  mkArgument "print-ir" "i" "Prints generated LLVM IR.
Use: --print-ir/-i" 0 print_ir_callback;
  mkArgument "no-color" "C" "Removes colored/highlighted outputs on the console.
Use: --no-color/-C" 0 no_color_callback;
  mkArgument "no-error" "E" "Removes error outputs.
Use: --no-error/-E" 0 no_error_callback;
  mkArgument "no-warn" "W" "Removes warning outputs.
Use: --no-warn/-W" 0 no_warning_callback;
  mkArgument "no-message" "M" "Removes message outputs.
Use: --no-message/-M" 0 no_message_callback;
  mkArgument "out" "o" "Specifies the output location.
Use: --out/-o <PATH>" 1 out_callback;
  mkArgument "no-wait" "NW" "Specifies that the compiler should exit without user input.
Use: --no-wait/-W" 0 no_wait_callback;
  mkArgument "opt-0" "O0" "Disable most optimizations.
Use: --opt-0/-O0" 0 o0_callback;
  mkArgument "opt-1" "O1" "Optimize quickly without hindering debuggability.
Use: --opt-1/-O1" 0 o1_callback;
  mkArgument "opt-2" "O2" "Optimize for fast execution as much as possible without significantly increasing compile times.
Use: --opt-2/-O2" 0 o2_callback;
  mkArgument "opt-3" "O3" "Optimize for fast execution as much as possible.
Use: --opt-3/-O3" 0 o3_callback;
  mkArgument "opt-s" "Os" "Optimize for small code size instead of fast execution.
Use: --opt-s/-Os" 0 os_callback;
  mkArgument "opt-z" "Oz" "Optimize for small code size at all cost.
Use: --opt-z/-Oz" 0 oz_callback;
  mkArgument "run-main" "r" "Run 'main' function inside the compiler if it exists.
Use: --run-main/-r" 0 run_main_callback
].

(** The spellings accepted on the command line: [--name] and [-abrv]. *)
Definition spellings (a : Argument) : list string :=
  [("--" ++ name a)%string; ("-" ++ abrv a)%string].

End Args.

(** * Properties of type equality *)

Module TypeEquality.
Import ColtTypes.

Lemma bind_returns {A B} (k : A -> outcome B) (a : A) :
  (Returns a ≫= k) = k a.
Proof. reflexivity. Qed.

Lemma bind_fails {A B} (k : A -> outcome B) (f : failure) :
  (Fails f ≫= k) = Fails f.
Proof. reflexivity. Qed.

Lemma depth_param (params : list ColtType) (x : ColtType) :
  x ∈ params -> (depth x <= list_max (map depth params))%nat.
Proof.
  induction 1 as [x l | x y l _ IH]; simpl; lia.
Qed.

Lemma depth_param_fn ret params x (n : nat) :
  x ∈ params -> (depth (FnType ret params) < S n)%nat -> (depth x < n)%nat.
Proof.
  intros Hin Hd. apply depth_param in Hin. simpl in Hd. lia.
Qed.

Lemma at_index_elem {A} (l : list A) (i : nat) (x : A) :
  at_index l i = Returns x -> x ∈ l.
Proof.
  unfold at_index. destruct (l !! i) eqn:E; [|discriminate].
  intros [= <-]. eapply list_elem_of_lookup_2; eauto.
Qed.

(** *** The recursion bound is never reached *)

Lemma params_loop_fuel is_eq (a b : list ColtType) :
  (forall x y, x ∈ a -> y ∈ b -> is_eq x y <> Fails OutOfFuel) ->
  forall todo i, params_loop is_eq a b i todo <> Fails OutOfFuel.
Proof.
  intros Hs todo. induction todo as [|todo IH]; intros i; simpl.
  - discriminate.
  - destruct (at_index a i) as [x|f] eqn:Ea;
      [|unfold at_index in Ea; destruct (a !! i); inversion Ea; discriminate].
    rewrite bind_returns.
    destruct (at_index b i) as [y|f] eqn:Eb;
      [|unfold at_index in Eb; destruct (b !! i); inversion Eb; discriminate].
    rewrite bind_returns.
    pose proof (Hs x y (at_index_elem _ _ _ Ea) (at_index_elem _ _ _ Eb)) as Hxy.
    destruct (is_eq x y) as [[|]|f]; simpl.
    + apply IH.
    + discriminate.
    + intros [= ->]. contradiction.
Qed.

Lemma is_equal_rec_fuel (n : nat) :
  forall this type,
    (depth this < n)%nat -> (depth type < n)%nat ->
    is_equal_rec n this type <> Fails OutOfFuel.
Proof.
  induction n as [|n IH]; intros this type Hthis Htype; [lia|].
  simpl. destruct (is_error this || is_error type); [discriminate|].
  destruct this as [|bid bc bops|bc bto|bret bparams|]; simpl;
    try discriminate.
  - destruct type; simpl; discriminate.
  - destruct type as [| | ac ato | |]; simpl; try discriminate.
    unfold is_equal_with_const_by.
    destruct (negb _); [discriminate|].
    apply IH; simpl in *; lia.
  - destruct type as [| | | aret aparams |]; simpl; try discriminate.
    pose proof (IH aret bret) as Hret.
    destruct (is_equal_rec n aret bret) as [r|f] eqn:Er; simpl.
    + destruct (negb r && _); [discriminate|].
      apply params_loop_fuel. intros x y Hx Hy.
      apply IH; eapply depth_param_fn; eauto.
    + intros [= ->]. apply Hret; [simpl in *; lia ..|reflexivity].
Qed.

Lemma is_equal_terminates (this type : ColtType) :
  is_equal this type <> Fails OutOfFuel.
Proof.
  unfold is_equal. apply is_equal_rec_fuel; lia.
Qed.

(** *** Reflexivity *)

Lemma params_loop_prefix is_eq (params extra : list ColtType) :
  (forall x, x ∈ params -> is_eq x x = Returns true) ->
  forall todo i, (i + todo = length params)%nat ->
    params_loop is_eq params (params ++ extra) i todo = Returns true.
Proof.
  intros Hs todo. induction todo as [|todo IH]; intros i Hi; simpl.
  - reflexivity.
  - destruct (lookup_lt_is_Some_2 params i) as [x Hx]; [lia|].
    unfold at_index at 1 2.
    rewrite (lookup_app_l_Some _ _ _ _ Hx), Hx. simpl.
    rewrite Hs by (eapply list_elem_of_lookup_2; eauto).
    simpl. apply IH. lia.
Qed.

Lemma is_equal_rec_refl (n : nat) :
  forall t, (depth t < n)%nat -> is_equal_rec n t t = Returns true.
Proof.
  induction n as [|n IH]; intros t Ht; [lia|].
  simpl. destruct t as [|id c ops|c to|ret params|]; simpl; try reflexivity.
  - rewrite bool_decide_eq_true_2; reflexivity.
  - unfold is_equal_with_const_by. rewrite Bool.eqb_reflx. simpl.
    apply IH. simpl in Ht. lia.
  - rewrite IH by (simpl in Ht; lia). simpl.
    rewrite <- (app_nil_r params) at 2.
    apply params_loop_prefix; [|lia].
    intros x Hx. apply IH. eapply depth_param_fn; eauto.
Qed.

(** Every type is equal to itself: the reflexive half of the equality laws
    holds for all five variants. *)
Lemma is_equal_refl (t : ColtType) : is_equal t t = Returns true.
Proof.
  unfold is_equal. apply is_equal_rec_refl. lia.
Qed.

(** A void receiver answers [true] whatever the argument is. *)
Lemma is_equal_void_receiver (type : ColtType) :
  is_equal VoidType type = Returns true.
Proof.
  unfold is_equal. simpl. destruct (is_error type); reflexivity.
Qed.

(** *** The result does not depend on the recursion bound *)

Lemma params_loop_ext is_eq1 is_eq2 (a b : list ColtType) :
  (forall x y, x ∈ a -> y ∈ b -> is_eq1 x y = is_eq2 x y) ->
  forall todo i, params_loop is_eq1 a b i todo = params_loop is_eq2 a b i todo.
Proof.
  intros Hs todo. induction todo as [|todo IH]; intros i; simpl; [reflexivity|].
  destruct (at_index a i) as [x|f] eqn:Ea; [|reflexivity].
  rewrite !bind_returns.
  destruct (at_index b i) as [y|f] eqn:Eb; [|reflexivity].
  rewrite !bind_returns.
  rewrite (Hs x y (at_index_elem _ _ _ Ea) (at_index_elem _ _ _ Eb)).
  destruct (is_eq2 x y) as [[|]|f]; simpl; [apply IH|reflexivity..].
Qed.

Lemma is_equal_rec_stable (n : nat) :
  forall m this type,
    (depth this < n)%nat -> (depth type < n)%nat ->
    (depth this < m)%nat -> (depth type < m)%nat ->
    is_equal_rec n this type = is_equal_rec m this type.
Proof.
  induction n as [|n IH]; intros m this type Hn1 Hn2 Hm1 Hm2; [lia|].
  destruct m as [|m]; [lia|].
  simpl. destruct (is_error this || is_error type); [reflexivity|].
  destruct this as [|bid bc bops|bc bto|bret bparams|]; simpl;
    try reflexivity.
  - destruct type as [| | ac ato | |]; simpl; try reflexivity.
    unfold is_equal_with_const_by.
    destruct (negb _); [reflexivity|].
    apply IH; simpl in *; lia.
  - destruct type as [| | | aret aparams |]; simpl; try reflexivity.
    rewrite (IH m aret bret) by (simpl in *; lia).
    destruct (is_equal_rec m aret bret) as [r|f]; simpl; [|reflexivity].
    destruct (negb r && _); [reflexivity|].
    apply params_loop_ext. intros x y Hx Hy.
    apply IH; eapply depth_param_fn; eauto.
Qed.

Lemma is_equal_rec_is_equal (n : nat) (this type : ColtType) :
  (depth this < n)%nat -> (depth type < n)%nat ->
  is_equal_rec n this type = is_equal this type.
Proof.
  intros H1 H2. unfold is_equal. apply is_equal_rec_stable; lia.
Qed.

(** The function case, as an equation over [is_equal] itself: [b] is the
    receiver and [a] the argument. *)
Lemma is_equal_fn (b_ret a_ret : ColtType) (b_params a_params : list ColtType) :
  is_equal (FnType b_ret b_params) (FnType a_ret a_params)
  = (ret_eq ← is_equal a_ret b_ret;
     if negb ret_eq && negb (length a_params =? length b_params)%nat
     then Returns false
     else params_loop is_equal a_params b_params 0 (length a_params)).
Proof.
  unfold is_equal at 1.
  set (n := Nat.max _ _).
  assert (Hb : (depth (FnType b_ret b_params) <= n)%nat) by (subst n; lia).
  assert (Ha : (depth (FnType a_ret a_params) <= n)%nat) by (subst n; lia).
  clearbody n. simpl.
  rewrite is_equal_rec_is_equal by (simpl in *; lia).
  destruct (is_equal a_ret b_ret) as [r|f]; simpl; [|reflexivity].
  destruct (negb r && _); [reflexivity|].
  apply params_loop_ext. intros x y Hx Hy.
  apply is_equal_rec_is_equal.
  - apply depth_param in Hx. simpl in Ha. lia.
  - apply depth_param in Hy. simpl in Hb. lia.
Qed.

(** The pointer case, as an equation over [is_equal_with_const]. *)
Lemma is_equal_ptr (b_const a_const : bool) (b_to a_to : ColtType) :
  is_equal (PtrType b_const b_to) (PtrType a_const a_to)
  = is_equal_with_const a_to b_to.
Proof.
  unfold is_equal at 1.
  set (n := Nat.max _ _).
  assert (Hb : (depth (PtrType b_const b_to) <= n)%nat) by (subst n; lia).
  assert (Ha : (depth (PtrType a_const a_to) <= n)%nat) by (subst n; lia).
  clearbody n. simpl.
  unfold is_equal_with_const, is_equal_with_const_by.
  destruct (negb _); [reflexivity|].
  apply is_equal_rec_is_equal; simpl in *; lia.
Qed.

(** Function types with the same parameter list compare equal whatever the
    comparison of their return types answers. *)
Lemma is_equal_fn_same_params (b_ret a_ret : ColtType)
    (params : list ColtType) (r : bool) :
  is_equal a_ret b_ret = Returns r ->
  is_equal (FnType b_ret params) (FnType a_ret params) = Returns true.
Proof.
  intros Hr. rewrite is_equal_fn, Hr. simpl.
  rewrite Nat.eqb_refl, andb_false_r.
  rewrite <- (app_nil_r params) at 2.
  apply params_loop_prefix; [|lia].
  intros x _. apply is_equal_refl.
Qed.

(** *** What the function case computes *)

(** When the argument's parameter list is a prefix of the receiver's, and the
    return types are the same, the comparison succeeds whatever the extra
    parameters of the receiver are. *)
Lemma is_equal_fn_prefix (ret : ColtType) (params extra : list ColtType) :
  is_equal (FnType ret (params ++ extra)) (FnType ret params) = Returns true.
Proof.
  unfold is_equal.
  set (n := Nat.max _ _).
  assert (Hn : (depth (FnType ret params) <= n)%nat) by (subst n; lia).
  clearbody n. simpl.
  rewrite is_equal_rec_refl by (simpl in Hn; lia). simpl.
  apply params_loop_prefix; [|lia].
  intros x Hx. apply is_equal_rec_refl.
  apply depth_param in Hx. simpl in Hn. lia.
Qed.

(** C1 (defect of the code).  The claim: two function types are equal iff
    their return types are equal and their parameter lists are equal
    element-wise, so that function types with equal return types and
    parameter lists of different lengths are not equal.  The code: the early
    exit of the function case is taken only when the return types differ AND
    the lengths differ.  With equal return types the loop runs over the
    argument's parameters only, so [fn(u8) -> void] is equal to
    [fn() -> void]; with equal lengths the return types are not looked at, so
    [fn() -> u8] is equal to [fn() -> f32]; and when the argument has more
    parameters than the receiver the loop indexes the receiver's parameters
    past their end. *)
Theorem C1_fn_equality_ignores_arity :
  is_equal (FnType VoidType [u8_t]) (FnType VoidType []) = Returns true
  /\ is_equal (FnType u8_t []) (FnType f32_t []) = Returns true
  /\ is_equal (FnType VoidType []) (FnType VoidType [u8_t])
     = Fails UndefinedBehaviour
  /\ (forall ret params extra,
        is_equal (FnType ret (params ++ extra)) (FnType ret params)
        = Returns true).
Proof.
  split; [reflexivity|]. split; [reflexivity|]. split; [reflexivity|].
  apply is_equal_fn_prefix.
Qed.

(** C2 (defect of the code).  The claim: [is_equal] is reflexive and
    symmetric, and a void type compared with a non-void, non-error type
    agrees with the comparison in the opposite order.  The code is
    reflexive ([is_equal_refl]) but not symmetric: the class of the argument
    is never tested, so a void receiver answers [true] for every argument,
    while in the opposite order the void argument is downcast to the
    receiver's class, which has no defined result. *)
Theorem C2_is_equal_not_symmetric :
  is_equal VoidType u8_t = Returns true
  /\ is_equal u8_t VoidType = Fails UndefinedBehaviour
  /\ is_equal VoidType u8_t <> is_equal u8_t VoidType
  /\ (forall type, is_equal VoidType type = Returns true).
Proof.
  split; [reflexivity|]. split; [reflexivity|]. split; [discriminate|].
  apply is_equal_void_receiver.
Qed.

(** C3.  [is_equal] with either operand being the error sentinel returns
    true: for every type [t], [Error.is_equal(t)] and [t.is_equal(Error)]
    are true. *)
Theorem C3_is_equal_error_sentinel (t : ColtType) :
  is_equal ErrorType t = Returns true /\ is_equal t ErrorType = Returns true.
Proof.
  unfold is_equal. split; simpl.
  - reflexivity.
  - rewrite orb_true_r. reflexivity.
Qed.

End TypeEquality.

(** * Properties of expression equality *)

Module ExprEquality.

Lemma eqb_of_refl {A} `{EqDecision A} (a : A) : (a ==? a) = true.
Proof. unfold eqb_of. apply bool_decide_eq_true_2. reflexivity. Qed.

Lemma eqb_of_ne {A} `{EqDecision A} (a b : A) : a <> b -> (a ==? b) = false.
Proof. unfold eqb_of. apply bool_decide_eq_false_2. Qed.

Lemma eqb_of_true {A} `{EqDecision A} (a b : A) : (a ==? b) = true -> a = b.
Proof. unfold eqb_of. apply bool_decide_eq_true_1. Qed.

Ltac eqb_simpl :=
  unfold operator_eq; simpl;
  rewrite ?eqb_of_refl; simpl;
  rewrite ?eqb_of_ne by congruence; simpl;
  rewrite ?andb_false_r; try reflexivity.

(** [operator==] never answers [true] for operands of different classes. *)
Lemma operator_eq_true_classof (lhs rhs : Expr) :
  operator_eq lhs rhs = Returns true -> classof lhs = classof rhs.
Proof.
  unfold operator_eq.
  destruct (classof lhs ==? classof rhs) eqn:E; simpl.
  - intros _. apply eqb_of_true. exact E.
  - discriminate.
Qed.

(** Allocating the same node twice gives two distinct handles to two
    identical nodes. *)
Lemma add_expr_twice (node : Expr) (ctx : COLTContext) :
  let '(h1, ctx1) := add_expr node ctx in
  let '(h2, ctx2) := add_expr node ctx1 in
  h1 <> h2 /\ deref ctx2 h1 = Some node /\ deref ctx2 h2 = Some node.
Proof.
  unfold add_expr, deref. simpl. split; [|split].
  - intros [= E]. rewrite length_app in E. simpl in E. lia.
  - rewrite lookup_app_l by (rewrite length_app; simpl; lia).
    rewrite lookup_app_r by lia.
    replace (length (exprs ctx) - length (exprs ctx))%nat with 0%nat by lia.
    reflexivity.
  - rewrite lookup_app_r by (rewrite length_app; simpl; lia).
    rewrite length_app. simpl.
    replace (length (exprs ctx) + 1 - (length (exprs ctx) + 1))%nat
      with 0%nat by lia.
    reflexivity.
Qed.

(** C4, the claim as stated fails: two literals that carry the same raw
    value do not compare equal. *)
Lemma C4_equal_literals_compare_unequal :
  operator_eq literal_7 literal_7 = Returns false
  /\ operator_eq literal_7 literal_7 <> Returns true.
Proof. split; [reflexivity|discriminate]. Qed.

(** C4 (amended).  Two literal expressions never compare equal under
    [operator==], whatever their raw 64-bit values are (the comparison of the
    values is disabled in the code); [operator==] answers true only for two
    operands of the same variant; and the raw 64-bit value is the only field
    of a literal. *)
Theorem C4_literal_equality (v1 v2 : QWORD) (lhs rhs : Expr)
    (e1 e2 : LiteralExpr.t) :
  operator_eq (Literal (LiteralExpr.mk v1)) (Literal (LiteralExpr.mk v2))
  = Returns false
  /\ (operator_eq lhs rhs = Returns true -> classof lhs = classof rhs)
  /\ (LiteralExpr.get_value e1 = LiteralExpr.get_value e2 -> e1 = e2).
Proof.
  split; [reflexivity|]. split.
  - apply operator_eq_true_classof.
  - destruct e1, e2. simpl. intros ->. reflexivity.
Qed.

Lemma C4_literal_equality_witness :
  let node := Convert (ConvertExpr.mk nullptr) in
  operator_eq node node = Returns true
  /\ classof node = classof node
  /\ LiteralExpr.mk 7 = LiteralExpr.mk 7.
Proof.
  intros node.
  pose proof (C4_literal_equality 7 7 node node
                (LiteralExpr.mk 7) (LiteralExpr.mk 7)) as (_ & Hc & Hv).
  split; [reflexivity|]. split.
  - apply Hc. reflexivity.
  - apply Hv. reflexivity.
Defined.

(** C5 (defect of the code).  The claim: comparing two scope expressions
    evaluates totally and returns false, never reaching the fatal default
    branch.  The code: the [EXPR_SCOPE] case has no [return] statement, so
    control falls through to [colt_unreachable] for every pair of scope
    expressions. *)
Theorem C5_scope_equality_is_unreachable (lhs rhs : ScopeExpr.t) :
  operator_eq (Scope lhs) (Scope rhs) = Fails Unreachable.
Proof. reflexivity. Qed.

(** C9.  For variable reads and writes, [is_global()] is true exactly when
    the stored local id is the maximum [u64]; the name-only constructors
    store that sentinel; the constructors that take a local id different
    from the sentinel succeed and build an expression that is not global,
    while the sentinel itself violates their assertion. *)
Theorem C9_global_sentinel (name : StringView) (value : PTR_Expr) (id : u64)
    (Hid : id <> u64_max) :
  u64_max = 18446744073709551615
  /\ (forall e, VariableReadExpr.is_global e = true
                <-> VariableReadExpr.local_ID e = u64_max)
  /\ (forall e, VariableWriteExpr.is_global e = true
                <-> VariableWriteExpr.local_ID e = u64_max)
  /\ VariableReadExpr.is_global (VariableReadExpr.new_global name) = true
  /\ VariableWriteExpr.is_global (VariableWriteExpr.new_global name value)
     = true
  /\ (exists e, VariableReadExpr.new_local name id = Returns e
                /\ VariableReadExpr.is_global e = false
                /\ VariableReadExpr.unsafe_get_local_id e = id
                /\ VariableReadExpr.get_local_ID e = Returns id)
  /\ (exists e, VariableWriteExpr.new_local name value id = Returns e
                /\ VariableWriteExpr.is_global e = false
                /\ VariableWriteExpr.unsafe_get_local_id e = id
                /\ VariableWriteExpr.get_local_ID e = Returns id)
  /\ VariableReadExpr.new_local name u64_max = Fails AssertionFailed
  /\ VariableWriteExpr.new_local name value u64_max = Fails AssertionFailed.
Proof.
  repeat split.
  - apply bool_decide_eq_true_1.
  - apply bool_decide_eq_true_2.
  - apply bool_decide_eq_true_1.
  - apply bool_decide_eq_true_2.
  - exists (VariableReadExpr.mk id name).
    unfold VariableReadExpr.new_local, VariableReadExpr.get_local_ID,
      VariableReadExpr.is_global. simpl.
    rewrite bool_decide_eq_false_2 by exact Hid. repeat split.
  - exists (VariableWriteExpr.mk id value name).
    unfold VariableWriteExpr.new_local, VariableWriteExpr.get_local_ID,
      VariableWriteExpr.is_global. simpl.
    rewrite bool_decide_eq_false_2 by exact Hid. repeat split.
Qed.

Lemma C9_global_sentinel_witness :
  3 <> u64_max
  /\ exists e, VariableReadExpr.new_local "x" 3 = Returns e
               /\ VariableReadExpr.is_global e = false.
Proof.
  assert (H : 3 <> u64_max) by (unfold u64_max; lia).
  split; [exact H|].
  destruct (C9_global_sentinel "x" nullptr 3 H)
    as (_ & _ & _ & _ & _ & (e & He & Hg & _) & _).
  exists e. split; [exact He|exact Hg].
Defined.

(** C10.  For unary, binary, conversion, variable declaration, variable
    write, return and condition expressions, [operator==] compares the
    children as handles: two expressions of the same variant with the same
    operator and fields whose children are distinct nodes with identical
    contents compare unequal, and they compare equal when the child handles
    are the very same. *)
Theorem C10_children_compared_by_handle
    (ctx : COLTContext) (c1 c2 : nat) (node : Expr)
    (H1 : deref ctx (Some c1) = Some node)
    (H2 : deref ctx (Some c2) = Some node)
    (Hne : c1 <> c2)
    (uop : UnaryOperator) (bop : BinaryOperator) (p q r : PTR_Expr)
    (name : StringView) (is_global : bool) (id : u64) :
  let h1 : PTR_Expr := Some c1 in
  let h2 : PTR_Expr := Some c2 in
  (operator_eq (Unary (UnaryExpr.mk uop h1)) (Unary (UnaryExpr.mk uop h2))
   = Returns false
   /\ operator_eq (Binary (BinaryExpr.mk h1 bop p)) (Binary (BinaryExpr.mk h2 bop p))
      = Returns false
   /\ operator_eq (Binary (BinaryExpr.mk p bop h1)) (Binary (BinaryExpr.mk p bop h2))
      = Returns false
   /\ operator_eq (Convert (ConvertExpr.mk h1)) (Convert (ConvertExpr.mk h2))
      = Returns false
   /\ operator_eq (VarDecl (VariableDeclExpr.mk is_global h1 name))
                  (VarDecl (VariableDeclExpr.mk is_global h2 name))
      = Returns false
   /\ operator_eq (VarWrite (VariableWriteExpr.mk id h1 name))
                  (VarWrite (VariableWriteExpr.mk id h2 name))
      = Returns false
   /\ operator_eq (FnReturn (FnReturnExpr.mk h1)) (FnReturn (FnReturnExpr.mk h2))
      = Returns false
   /\ operator_eq (Condition (ConditionExpr.mk h1 p q))
                  (Condition (ConditionExpr.mk h2 p q))
      = Returns false
   /\ operator_eq (Condition (ConditionExpr.mk p h1 q))
                  (Condition (ConditionExpr.mk p h2 q))
      = Returns false
   /\ operator_eq (Condition (ConditionExpr.mk p q h1))
                  (Condition (ConditionExpr.mk p q h2))
      = Returns false)
  /\ (operator_eq (Unary (UnaryExpr.mk uop p)) (Unary (UnaryExpr.mk uop p))
      = Returns true
      /\ operator_eq (Binary (BinaryExpr.mk p bop q)) (Binary (BinaryExpr.mk p bop q))
         = Returns true
      /\ operator_eq (Convert (ConvertExpr.mk p)) (Convert (ConvertExpr.mk p))
         = Returns true
      /\ operator_eq (VarDecl (VariableDeclExpr.mk is_global p name))
                     (VarDecl (VariableDeclExpr.mk is_global p name))
         = Returns true
      /\ operator_eq (VarWrite (VariableWriteExpr.mk id p name))
                     (VarWrite (VariableWriteExpr.mk id p name))
         = Returns true
      /\ operator_eq (FnReturn (FnReturnExpr.mk p)) (FnReturn (FnReturnExpr.mk p))
         = Returns true
      /\ operator_eq (Condition (ConditionExpr.mk p q r))
                     (Condition (ConditionExpr.mk p q r))
         = Returns true).
Proof.
  intros h1 h2.
  assert (Hh : h1 <> h2) by (subst h1 h2; congruence).
  split; repeat split; eqb_simpl.
Qed.

Lemma C10_children_compared_by_handle_witness :
  deref two_literals (Some 0%nat) = Some (Literal (LiteralExpr.mk 1))
  /\ deref two_literals (Some 1%nat) = Some (Literal (LiteralExpr.mk 1))
  /\ 0%nat <> 1%nat
  /\ operator_eq (Unary (UnaryExpr.mk 0%N (Some 0%nat)))
                 (Unary (UnaryExpr.mk 0%N (Some 1%nat)))
     = Returns false.
Proof.
  assert (Ha : deref two_literals (Some 0%nat)
               = Some (Literal (LiteralExpr.mk 1))) by reflexivity.
  assert (Hb : deref two_literals (Some 1%nat)
               = Some (Literal (LiteralExpr.mk 1))) by reflexivity.
  assert (Hne : 0%nat <> 1%nat) by lia.
  split; [exact Ha|]. split; [exact Hb|]. split; [exact Hne|].
  exact (proj1 (proj1 (C10_children_compared_by_handle
                         two_literals 0 1 _ Ha Hb Hne
                         0%N 0%N nullptr nullptr nullptr "x" false 0))).
Defined.

End ExprEquality.

(** * Properties of the AST builder *)

Module ASTProperties.
Import ASTBuilder.

(** The increment of the counter is an increment by one as long as the
    counter is below the largest [u16]; from there it wraps to zero. *)
Lemma u16_incr_below (x : u16) : 0 <= x < 2 ^ 16 - 1 -> u16_incr x = x + 1.
Proof. intros H. unfold u16_incr. apply Z.mod_small. lia. Qed.

Lemma u16_incr_wraps : u16_incr (2 ^ 16 - 1) = 0.
Proof. reflexivity. Qed.

Lemma u16_incr_range (x : u16) : 0 <= u16_incr x < 2 ^ 16.
Proof. unfold u16_incr. apply Z.mod_pos_bound. lia. Qed.

(** Consuming tokens leaves the counters alone. *)
Lemma with_tokens_error_count s tkn lex :
  error_count (with_tokens s tkn lex) = error_count s.
Proof. reflexivity. Qed.

Lemma panic_consume_error_count stop s :
  error_count (panic_consume stop s) = error_count s.
Proof.
  unfold panic_consume.
  destruct (skip_until stop (current_tkn s) (pending (lexer s))).
  reflexivity.
Qed.

Lemma call_panic_error_count panic_c s :
  error_count (call_panic panic_c s) = error_count s.
Proof.
  destruct panic_c; simpl.
  - reflexivity.
  - unfold consume_current_tkn. destruct (get_next_token (lexer s)).
    reflexivity.
  - apply panic_consume_error_count.
  - apply panic_consume_error_count.
  - apply panic_consume_error_count.
Qed.

Lemma call_panic_warn_count panic_c s :
  warn_count (call_panic panic_c s) = warn_count s.
Proof.
  destruct panic_c; simpl; try reflexivity;
    unfold consume_current_tkn, panic_consume_semicolon, panic_consume_fn_decl,
      panic_consume_rparen, panic_consume;
    repeat match goal with
           | |- context [let '(_, _) := ?x in _] => destruct x
           end; reflexivity.
Qed.

Lemma report_error_count as_ info msg s :
  error_count (report as_ info msg s)
  = match as_ with
    | ERROR => u16_incr (error_count s)
    | WARNING | MESSAGE => error_count s
    end.
Proof. destruct as_; reflexivity. Qed.

(** The panic methods stop on a token they were asked to stop on, or at the
    end of the input. *)
Lemma skip_until_stops stop cur rest :
  let '(tkn, _) := skip_until stop cur rest in
  stop tkn = true \/ tkn = TKN_EOF.
Proof.
  revert cur. induction rest as [|t rest IH]; intros cur; simpl.
  - destruct (stop cur) eqn:Es; simpl; [left; exact Es|].
    destruct (cur ==? TKN_EOF) eqn:Ee; simpl; right; [|reflexivity].
    apply bool_decide_eq_true_1 in Ee. exact Ee.
  - destruct (stop cur) eqn:Es; simpl; [left; exact Es|].
    destruct (cur ==? TKN_EOF) eqn:Ee; simpl.
    + right. apply bool_decide_eq_true_1 in Ee. exact Ee.
    + apply IH.
Qed.

Lemma call_panic_printed panic_c s :
  printed (call_panic panic_c s) = printed s.
Proof.
  destruct panic_c; simpl; try reflexivity;
    unfold consume_current_tkn, panic_consume_semicolon, panic_consume_fn_decl,
      panic_consume_rparen, panic_consume;
    repeat match goal with
           | |- context [let '(_, _) := ?x in _] => destruct x
           end; reflexivity.
Qed.

Lemma report_printed as_ info msg s :
  printed (report as_ info msg s) = printed s ++ [mkDiagnostic as_ info msg].
Proof. destruct as_; reflexivity. Qed.

Lemma count_errors_snoc ds d :
  count_errors (ds ++ [d])
  = (count_errors ds
     + match severity d with ERROR => 1 | WARNING | MESSAGE => 0 end)%nat.
Proof.
  induction ds as [|d' ds IH]; simpl.
  - destruct (severity d); reflexivity.
  - rewrite IH. destruct (severity d'); reflexivity.
Qed.

Lemma fresh_builder_counts_errors lex tkn :
  counts_errors (fresh_builder lex tkn).
Proof. reflexivity. Qed.

(** The counter keeps track of the error diagnostics: the agreement between
    the counter and the printed diagnostics is kept by every report. *)
Lemma generate_any_counts_errors as_ info panic_c msg s :
  counts_errors s -> counts_errors (generate_any as_ info panic_c msg s).
Proof.
  unfold counts_errors, generate_any. intros Hs.
  rewrite call_panic_error_count, call_panic_printed.
  rewrite report_error_count, report_printed, count_errors_snoc. simpl.
  destruct as_.
  - unfold u16_incr. rewrite Hs, Nat2Z.inj_add. simpl.
    apply Zplus_mod_idemp_l.
  - rewrite Nat.add_0_r. exact Hs.
  - rewrite Nat.add_0_r. exact Hs.
Qed.

(** C7, the claim as stated fails: on a builder whose error count is 65535
    an error report leaves the count at 0, not at 65536. *)
Lemma C7_error_count_wraps_at_max :
  error_count builder_at_max = 65535
  /\ error_count (generate_any ERROR (mkSrcInfo 1 1 "" "") null_method "error"
                               builder_at_max) = 0
  /\ error_count (generate_any_current ERROR null_method "error" builder_at_max)
     = 0
  /\ error_count (generate_any ERROR (mkSrcInfo 1 1 "" "") null_method "error"
                               builder_at_max)
     <> error_count builder_at_max + 1.
Proof. repeat split. discriminate. Qed.

(** C7 (amended).  A diagnostic reported through the error channel, by
    [generate_any] or by [generate_any_current], increments the 16-bit error
    count of the builder by one modulo 2^16: by exactly one as long as the
    count is below 65535, and from 65535 back to 0.  A diagnostic reported as
    a warning or as a message leaves the error count unchanged.  Each call
    prints exactly one diagnostic, and no channel changes the warning
    count. *)
Theorem C7_error_channel_counts
    (info : SourceCodeExprInfo) (panic_c : panic_consume_t) (msg : string)
    (s : ASTMaker) :
  error_count (generate_any ERROR info panic_c msg s)
  = (error_count s + 1) mod 2 ^ 16
  /\ error_count (generate_any_current ERROR panic_c msg s)
     = (error_count s + 1) mod 2 ^ 16
  /\ (0 <= error_count s < 2 ^ 16 - 1 ->
      error_count (generate_any ERROR info panic_c msg s) = error_count s + 1
      /\ error_count (generate_any_current ERROR panic_c msg s)
         = error_count s + 1)
  /\ (error_count s = 2 ^ 16 - 1 ->
      error_count (generate_any ERROR info panic_c msg s) = 0
      /\ error_count (generate_any_current ERROR panic_c msg s) = 0)
  /\ error_count (generate_any WARNING info panic_c msg s) = error_count s
  /\ error_count (generate_any MESSAGE info panic_c msg s) = error_count s
  /\ error_count (generate_any_current WARNING panic_c msg s) = error_count s
  /\ error_count (generate_any_current MESSAGE panic_c msg s) = error_count s
  /\ (forall as_,
        printed (generate_any as_ info panic_c msg s)
        = printed s ++ [mkDiagnostic as_ info msg]
        /\ warn_count (generate_any as_ info panic_c msg s) = warn_count s
        /\ warn_count (generate_any_current as_ panic_c msg s) = warn_count s).
Proof.
  unfold generate_any, generate_any_current.
  rewrite !call_panic_error_count, !report_error_count. unfold u16_incr.
  split; [reflexivity|]. split; [reflexivity|]. split; [|split].
  - intros Hs. rewrite Z.mod_small by lia. split; reflexivity.
  - intros ->. split; reflexivity.
  - repeat split;
      rewrite ?call_panic_printed, ?call_panic_warn_count;
      destruct as_; reflexivity.
Qed.

Lemma C7_error_channel_counts_witness :
  let s := fresh_builder (mkLexer [] 1 "" "") TKN_EOF in
  0 <= error_count s < 2 ^ 16 - 1
  /\ error_count (generate_any ERROR (mkSrcInfo 1 1 "" "") null_method "error" s)
     = error_count s + 1.
Proof.
  intros s.
  assert (H : 0 <= error_count s < 2 ^ 16 - 1) by (simpl; lia).
  split; [exact H|].
  exact (proj1 (proj1 (proj2 (proj2
           (C7_error_channel_counts (mkSrcInfo 1 1 "" "") null_method
                                    "error"%string s))) H)).
Defined.

End ASTProperties.

(** * Further properties of the types *)

Module TypeProperties.
Import ColtTypes ColtTypeFactories TypeEquality.

Lemma same_shape_fn a_ret a_params b_ret b_params :
  same_shape (FnType a_ret a_params) (FnType b_ret b_params)
  = same_shape a_ret b_ret && same_shapes a_params b_params.
Proof.
  reflexivity.
Qed.

Lemma same_shapes_length xs : forall ys,
  same_shapes xs ys = true -> length xs = length ys.
Proof.
  induction xs as [|x xs IH]; intros [|y ys]; simpl; try discriminate.
  - reflexivity.
  - intros H. apply andb_true_iff in H as [_ H]. f_equal. apply IH, H.
Qed.

Lemma same_shapes_lookup xs : forall ys i x y,
  same_shapes xs ys = true -> xs !! i = Some x -> ys !! i = Some y ->
  same_shape x y = true.
Proof.
  induction xs as [|x0 xs IH]; intros [|y0 ys] i x y; simpl; try discriminate.
  intros H. apply andb_true_iff in H as [H0 H].
  destruct i as [|i]; simpl.
  - intros [= <-] [= <-]. exact H0.
  - apply IH, H.
Qed.

Lemma at_index_fails {A} (l : list A) (i : nat) (g : failure) :
  at_index l i = Fails g -> g = UndefinedBehaviour.
Proof.
  unfold at_index. destruct (l !! i); [discriminate|]. intros [= <-].
  reflexivity.
Qed.

(** A failure of the loop is a failure of a comparison or an access past
    the end of a parameter list. *)
Lemma params_loop_never (f : failure) is_eq (a b : list ColtType) :
  f <> UndefinedBehaviour ->
  (forall x y, x ∈ a -> y ∈ b -> is_eq x y <> Fails f) ->
  forall todo i, params_loop is_eq a b i todo <> Fails f.
Proof.
  intros Hf Hs todo. induction todo as [|todo IH]; intros i; simpl.
  - discriminate.
  - destruct (at_index a i) as [x|g] eqn:Ea;
      [|rewrite bind_fails; apply at_index_fails in Ea; congruence].
    rewrite bind_returns.
    destruct (at_index b i) as [y|g] eqn:Eb;
      [|rewrite bind_fails; apply at_index_fails in Eb; congruence].
    rewrite bind_returns.
    pose proof (Hs x y (at_index_elem _ _ _ Ea) (at_index_elem _ _ _ Eb))
      as Hxy.
    destruct (is_eq x y) as [[|]|g]; simpl.
    + apply IH.
    + discriminate.
    + congruence.
Qed.

Lemma is_equal_rec_never_unreachable (n : nat) :
  forall this type, is_equal_rec n this type <> Fails Unreachable.
Proof.
  induction n as [|n IH]; intros this type; simpl; [discriminate|].
  destruct (is_error this || is_error type) eqn:E; [discriminate|].
  destruct this as [|bid bc bops|bc bto|bret bparams|]; simpl;
    try discriminate.
  - destruct type; simpl; discriminate.
  - destruct type as [| | ac ato | |]; simpl; try discriminate.
    unfold is_equal_with_const_by.
    destruct (negb _); [discriminate|]. apply IH.
  - destruct type as [| | | aret aparams |]; simpl; try discriminate.
    pose proof (IH aret bret) as Hret.
    destruct (is_equal_rec n aret bret) as [r|f]; simpl; [|congruence].
    destruct (negb r && _); [discriminate|].
    apply params_loop_never; [discriminate|]. intros x y _ _. apply IH.
Qed.

Lemma is_equal_rec_never_asserts (n : nat) :
  forall this type, is_equal_rec n this type <> Fails AssertionFailed.
Proof.
  induction n as [|n IH]; intros this type; simpl; [discriminate|].
  destruct (is_error this || is_error type) eqn:E; [discriminate|].
  destruct this as [|bid bc bops|bc bto|bret bparams|]; simpl;
    try discriminate.
  - destruct type; simpl; discriminate.
  - destruct type as [| | ac ato | |]; simpl; try discriminate.
    unfold is_equal_with_const_by.
    destruct (negb _); [discriminate|]. apply IH.
  - destruct type as [| | | aret aparams |]; simpl; try discriminate.
    pose proof (IH aret bret) as Hret.
    destruct (is_equal_rec n aret bret) as [r|f]; simpl; [|congruence].
    destruct (negb r && _); [discriminate|].
    apply params_loop_never; [discriminate|]. intros x y _ _. apply IH.
Qed.

(** X1.  [is_equal] and [is_equal_with_const] are reflexive: every type,
    however deeply nested, is equal to itself under both. *)
Theorem X1_type_equality_reflexive (t : ColtType) :
  is_equal t t = Returns true /\ is_equal_with_const t t = Returns true.
Proof.
  split; [apply is_equal_refl|].
  unfold is_equal_with_const, is_equal_with_const_by.
  rewrite Bool.eqb_reflx. simpl. apply is_equal_refl.
Qed.

(** X2.  On constructed types the [default] label of [Type::is_equal] is
    dead code: a comparison either returns a boolean or performs an invalid
    access (a downcast of the argument to the receiver's class, or a
    parameter index past the end); it never reaches [colt_unreachable]. *)
Theorem X2_is_equal_never_unreachable (this type : ColtType) :
  is_equal this type <> Fails Unreachable
  /\ ((exists r, is_equal this type = Returns r)
      \/ is_equal this type = Fails UndefinedBehaviour).
Proof.
  split; [apply is_equal_rec_never_unreachable|].
  pose proof (is_equal_terminates this type) as Hfuel.
  pose proof (is_equal_rec_never_unreachable
                (S (Nat.max (depth this) (depth type))) this type) as Hu.
  pose proof (is_equal_rec_never_asserts
                (S (Nat.max (depth this) (depth type))) this type) as Ha.
  unfold is_equal in *.
  destruct (is_equal_rec _ this type) as [r|[]]; try congruence.
  - left. exists r. reflexivity.
  - right. reflexivity.
Qed.

(** *** Symmetry on operands of the same shape *)

Lemma params_loop_sym is_eq (a b : list ColtType) :
  length a = length b ->
  (forall j x y, a !! j = Some x -> b !! j = Some y ->
     exists r, is_eq x y = Returns r /\ is_eq y x = Returns r) ->
  forall todo i, (i + todo = length a)%nat ->
    exists r, params_loop is_eq a b i todo = Returns r
              /\ params_loop is_eq b a i todo = Returns r.
Proof.
  intros Hlen Hs todo. induction todo as [|todo IH]; intros i Hi; simpl.
  - exists true. split; reflexivity.
  - destruct (lookup_lt_is_Some_2 a i) as [x Hx]; [lia|].
    destruct (lookup_lt_is_Some_2 b i) as [y Hy]; [lia|].
    unfold at_index. rewrite Hx, Hy. rewrite !bind_returns.
    destruct (Hs i x y Hx Hy) as (r & -> & ->). rewrite !bind_returns.
    destruct r; simpl.
    + apply IH. lia.
    + exists false. split; reflexivity.
Qed.

Lemma bool_eqb_comm (x y : bool) : Bool.eqb x y = Bool.eqb y x.
Proof. destruct x, y; reflexivity. Qed.

Lemma is_equal_rec_sym (n : nat) :
  forall a b,
    (depth a < n)%nat -> (depth b < n)%nat -> same_shape a b = true ->
    exists r, is_equal_rec n a b = Returns r /\ is_equal_rec n b a = Returns r.
Proof.
  induction n as [|n IH]; intros a b Ha Hb Hs; [lia|].
  destruct a as [|aid ac aops|ac ato|aret aparams|];
    destruct b as [|bid bc bops|bc bto|bret bparams|];
    try discriminate Hs;
    try (exists true; split; reflexivity).
  - exists (bool_decide (bid = aid)). split; simpl; [reflexivity|].
    f_equal. apply bool_decide_ext. split; congruence.
  - simpl. unfold is_equal_with_const_by.
    rewrite (bool_eqb_comm (is_const ato)).
    destruct (negb _); [exists false; split; reflexivity|].
    simpl in Hs.
    destruct (IH ato bto) as (r & H1 & H2); [simpl in *; lia ..|exact Hs|].
    exists r. split; assumption.
  - rewrite same_shape_fn in Hs. apply andb_true_iff in Hs as [Hr Hp].
    pose proof (same_shapes_length _ _ Hp) as Hlen.
    destruct (IH aret bret) as (r & H1 & H2); [simpl in *; lia ..|exact Hr|].
    simpl. rewrite H1, H2. simpl.
    rewrite <- Hlen, !Nat.eqb_refl, !andb_false_r.
    destruct (params_loop_sym (is_equal_rec n) aparams bparams Hlen)
      with (todo := length aparams) (i := 0%nat) as (r' & E1 & E2); [|lia|].
    + intros j x y Hx Hy. apply IH.
      * eapply depth_param_fn; [eapply list_elem_of_lookup_2|]; eauto.
      * eapply depth_param_fn; [eapply list_elem_of_lookup_2|]; eauto.
      * eapply same_shapes_lookup; eauto.
    + exists r'. split; assumption.
Qed.

(** X3.  On two types of the same shape (the same class position by
    position, function types with as many parameters), [is_equal] returns a
    boolean and gives the same answer in both orders. *)
Theorem X3_is_equal_symmetric_on_same_shape (a b : ColtType)
    (Hshape : same_shape a b = true) :
  exists r, is_equal a b = Returns r /\ is_equal b a = Returns r.
Proof.
  destruct (is_equal_rec_sym (S (Nat.max (depth a) (depth b))) a b)
    as (r & H1 & H2); [lia|lia|exact Hshape|].
  exists r. split.
  - exact H1.
  - rewrite <- H2. symmetry. apply is_equal_rec_is_equal; lia.
Qed.

Lemma X3_is_equal_symmetric_on_same_shape_witness :
  same_shape fn_sample_a fn_sample_b = true
  /\ exists r, is_equal fn_sample_a fn_sample_b = Returns r
               /\ is_equal fn_sample_b fn_sample_a = Returns r.
Proof.
  assert (H : same_shape fn_sample_a fn_sample_b = true) by reflexivity.
  split; [exact H|].
  exact (X3_is_equal_symmetric_on_same_shape fn_sample_a fn_sample_b H).
Defined.

(** *** A parameter that differs *)

Lemma params_loop_mismatch is_eq (a b : list ColtType) (i : nat) x y :
  a !! i = Some x -> b !! i = Some y -> is_eq x y = Returns false ->
  (forall j, (j < i)%nat ->
     exists xj yj rj, a !! j = Some xj /\ b !! j = Some yj
                      /\ is_eq xj yj = Returns rj) ->
  forall todo k, (k <= i)%nat -> (i < k + todo)%nat ->
    params_loop is_eq a b k todo = Returns false.
Proof.
  intros Hx Hy Hxy Hbefore todo.
  induction todo as [|todo IH]; intros k Hk Hi; [lia|]. simpl.
  destruct (decide (k = i)) as [->|Hne].
  - unfold at_index. rewrite Hx, Hy. rewrite !bind_returns, Hxy.
    reflexivity.
  - destruct (Hbefore k) as (xj & yj & rj & Hxj & Hyj & Hr); [lia|].
    unfold at_index. rewrite Hxj, Hyj. rewrite !bind_returns, Hr.
    rewrite bind_returns. destruct rj; simpl; [|reflexivity].
    apply IH; lia.
Qed.

(** X4.  A parameter that differs is detected: when the parameters at some
    common index compare unequal, and the comparisons of the return types
    and of the parameters before that index all return, two function types
    compare unequal. *)
Theorem X4_fn_parameter_mismatch_detected
    (b_ret a_ret : ColtType) (b_params a_params : list ColtType)
    (i : nat) (x y : ColtType) (r : bool)
    (Hret : is_equal a_ret b_ret = Returns r)
    (Hx : a_params !! i = Some x) (Hy : b_params !! i = Some y)
    (Hxy : is_equal x y = Returns false)
    (Hbefore : forall j, (j < i)%nat ->
       exists xj yj rj, a_params !! j = Some xj /\ b_params !! j = Some yj
                        /\ is_equal xj yj = Returns rj) :
  is_equal (FnType b_ret b_params) (FnType a_ret a_params) = Returns false.
Proof.
  rewrite is_equal_fn, Hret. rewrite bind_returns.
  destruct (negb r && _); [reflexivity|].
  eapply params_loop_mismatch; eauto; [lia|].
  apply lookup_lt_Some in Hx. lia.
Qed.

Lemma X4_fn_parameter_mismatch_detected_witness :
  is_equal (FnType VoidType [u8_t; f32_t]) (FnType VoidType [u8_t; u8_t])
  = Returns false.
Proof.
  apply (X4_fn_parameter_mismatch_detected
           VoidType VoidType [u8_t; f32_t] [u8_t; u8_t] 1 u8_t f32_t true);
    try reflexivity.
  intros j Hj. assert (j = 0%nat) as -> by lia.
  exists u8_t, u8_t, true. repeat split.
Defined.

(** *** Supported operators *)

Lemma supports_from_elem (valid_op : list BinaryOperator) (op : BinaryOperator) :
  supports_from valid_op op = true <-> op ∈ valid_op.
Proof.
  induction valid_op as [|o rest IH]; simpl.
  - split; [discriminate|]. intros H. inversion H.
  - destruct (bool_decide (o = op)) eqn:E.
    + apply bool_decide_eq_true_1 in E. subst. split; [|reflexivity].
      intros _. left.
    + apply bool_decide_eq_false_1 in E. rewrite IH. split.
      * intros H. right. exact H.
      * intros H. inversion H; subst; [contradiction|assumption].
Qed.

(** X5.  [supports] is a membership test on the operators a type was built
    with, and every factory of a built-in type installs the array of its
    category: the ten integral kinds share one array, the two floating kinds
    another, [bool] the third.  The const flag plays no part. *)
Theorem X5_supports_by_category
    (IntegralSupported FloatingSupported BoolSupported : list BinaryOperator)
    (id : BuiltInID) (is_const : bool) (op : BinaryOperator) :
  exists answer,
    supports (factory_of IntegralSupported FloatingSupported BoolSupported
                         id is_const) op = Returns answer
    /\ (answer = true
        <-> op ∈ supported_by IntegralSupported FloatingSupported
                              BoolSupported id)
    /\ get_builtin_id (factory_of IntegralSupported FloatingSupported
                                  BoolSupported id is_const) = Returns id.
Proof.
  destruct id; simpl; eexists; (split; [reflexivity|]);
    (split; [apply supports_from_elem|reflexivity]).
Qed.

End TypeProperties.

(** * Further properties of the expressions *)

Module ExprProperties.
Import ExprHash ExprEquality.

Lemma eqb_of_sym {A} `{EqDecision A} (a b : A) : (a ==? b) = (b ==? a).
Proof. unfold eqb_of. apply bool_decide_ext. split; congruence. Qed.

Lemma returns_true_inv (b : bool) : Returns b = Returns true -> b = true.
Proof. intros [= ->]. reflexivity. Qed.

Ltac split_fields H :=
  apply returns_true_inv in H;
  repeat match type of H with
         | (_ && _) = true =>
             let H' := fresh H in
             apply andb_true_iff in H as [H H']; apply eqb_of_true in H'
         end;
  apply eqb_of_true in H.

Ltac sym_fields :=
  f_equal;
  repeat (apply (f_equal2 andb); [|apply eqb_of_sym]);
  apply eqb_of_sym.

(** X6.  [operator==] on expressions is symmetric: for every two nodes the
    comparison gives the same outcome in both orders, the outcomes that are
    no boolean included. *)
Theorem X6_operator_eq_symmetric (lhs rhs : Expr) :
  operator_eq lhs rhs = operator_eq rhs lhs.
Proof.
  unfold operator_eq. rewrite (eqb_of_sym (classof rhs)).
  destruct (classof lhs ==? classof rhs) eqn:E; [|reflexivity].
  apply eqb_of_true in E. simpl. rewrite <- E.
  destruct lhs as [lid|l|l|l|l|l|l|l|l|l|l|l];
    try destruct lid; destruct rhs as [rid|r|r|r|r|r|r|r|r|r|r|r];
    try discriminate E; simpl in E; subst; simpl; try reflexivity;
    sym_fields.
Qed.

Lemma operator_eq_true_identical (lhs rhs : Expr) :
  operator_eq lhs rhs = Returns true ->
  lhs = rhs /\ compares_fields lhs = true.
Proof.
  intros H. pose proof (operator_eq_true_classof _ _ H) as Hc.
  destruct lhs as [lid|l|l|l|l|l|l|l|l|l|l|l];
    try destruct lid; destruct rhs as [rid|r|r|r|r|r|r|r|r|r|r|r];
    try discriminate Hc; simpl in Hc; subst;
    unfold operator_eq in H; simpl in H; try discriminate H;
    split_fields H; destruct l, r; simpl in *; subst; split; reflexivity.
Qed.

(** X7.  [operator==] answers true exactly for two nodes of one of the
    classes whose case compares the fields (unary, binary, conversion,
    variable declaration, read and write, condition, return) that agree on
    every field and on every child handle.  In particular it never answers
    true for literals or function definitions, and a true answer means the
    two nodes have the same contents. *)
Theorem X7_operator_eq_true_iff_identical (lhs rhs : Expr) :
  operator_eq lhs rhs = Returns true
  <-> lhs = rhs /\ compares_fields lhs = true.
Proof.
  split.
  - apply operator_eq_true_identical.
  - intros [<- Hf].
    destruct lhs; try discriminate Hf; eqb_simpl.
Qed.

(** X8.  The outcomes of [operator==] that are no boolean: the comparison
    reaches [colt_unreachable] exactly when both operands carry the same tag
    and that tag is the scope, the function call or the base tag; it makes
    an invalid downcast only if an operand was built with the base
    constructor alone, never on two objects of the subclasses. *)
Theorem X8_operator_eq_failures (lhs rhs : Expr) :
  (operator_eq lhs rhs = Fails Unreachable
   <-> classof lhs = classof rhs /\ unreachable_tag (classof lhs) = true)
  /\ (operator_eq lhs rhs = Fails UndefinedBehaviour
      -> is_bare lhs = true \/ is_bare rhs = true)
  /\ operator_eq lhs rhs <> Fails AssertionFailed
  /\ operator_eq lhs rhs <> Fails OutOfFuel.
Proof.
  unfold operator_eq.
  destruct (classof lhs ==? classof rhs) eqn:E; simpl.
  - apply eqb_of_true in E.
    destruct lhs as [lid|l|l|l|l|l|l|l|l|l|l|l];
      try destruct lid; destruct rhs as [rid|r|r|r|r|r|r|r|r|r|r|r];
      try discriminate E; simpl in E; subst; simpl;
      (split; [split; [try discriminate; intros _; split; reflexivity
                      |try reflexivity; intros [_ H]; discriminate H]
              |split; [try discriminate; intros _; auto
                      |split; discriminate]]).
  - split; [split; [discriminate|]|repeat split; discriminate].
    intros [Hc _]. rewrite Hc, eqb_of_refl in E. discriminate E.
Qed.

(** X9.  The hash is consistent with the equality: two nodes that
    [operator==] declares equal have the same hash, whatever the hashing
    primitives are; and the hash of every object of a subclass is defined
    (the fatal branch of [hash] is taken only for an object built with the
    base constructor alone). *)
Theorem X9_hash_consistent_with_equality
    (H : HashPrimitives) (lhs rhs : Expr) :
  (operator_eq lhs rhs = Returns true -> hash H lhs = hash H rhs)
  /\ (is_bare lhs = false -> exists h, hash H lhs = Returns h).
Proof.
  split.
  - intros He. apply operator_eq_true_identical in He as [-> _].
    reflexivity.
  - intros Hb. destruct lhs; try discriminate Hb; simpl; eexists; reflexivity.
Qed.

(** X10.  A read of (or a write to) a global variable never compares equal
    to a read of (a write to) a local variable, even under the same name and
    with the same value: the sentinel id of the one differs from the local
    id the constructor of the other accepted. *)
Theorem X10_global_never_equals_local
    (name name' : StringView) (value value' : PTR_Expr) (id : u64)
    (r : VariableReadExpr.t) (w : VariableWriteExpr.t)
    (Hr : VariableReadExpr.new_local name' id = Returns r)
    (Hw : VariableWriteExpr.new_local name' value' id = Returns w) :
  operator_eq (VarRead (VariableReadExpr.new_global name)) (VarRead r)
  = Returns false
  /\ operator_eq (VarRead r) (VarRead (VariableReadExpr.new_global name))
     = Returns false
  /\ operator_eq (VarWrite (VariableWriteExpr.new_global name value))
                 (VarWrite w) = Returns false
  /\ operator_eq (VarWrite w)
                 (VarWrite (VariableWriteExpr.new_global name value))
     = Returns false.
Proof.
  unfold VariableReadExpr.new_local, VariableReadExpr.is_global in Hr.
  unfold VariableWriteExpr.new_local, VariableWriteExpr.is_global in Hw.
  simpl in Hr, Hw.
  destruct (bool_decide (id = u64_max)) eqn:E; simpl in Hr, Hw;
    [discriminate Hr|].
  apply bool_decide_eq_false_1 in E.
  injection Hr as <-. injection Hw as <-.
  repeat split; unfold operator_eq; simpl;
    rewrite ?(eqb_of_ne u64_max id), ?(eqb_of_ne id u64_max) by congruence;
    rewrite ?andb_false_r; reflexivity.
Qed.

Lemma X10_global_never_equals_local_witness :
  operator_eq (VarRead (VariableReadExpr.new_global "x"))
              (VarRead (VariableReadExpr.mk 0 "x")) = Returns false.
Proof.
  exact (proj1 (X10_global_never_equals_local
                  "x" "x" nullptr nullptr 0
                  (VariableReadExpr.mk 0 "x")
                  (VariableWriteExpr.mk 0 nullptr "x")
                  eq_refl eq_refl)).
Defined.

End ExprProperties.

(** * Further properties of the AST builder *)

Module ASTBuilderProperties.
Import ASTBuilder ASTParsing ASTProperties.

Lemma consume_current_tkn_counts_errors s :
  counts_errors s -> counts_errors (consume_current_tkn s).
Proof.
  unfold counts_errors. intros Hs.
  change (consume_current_tkn s) with (call_panic ptr_consume_current_tkn s).
  rewrite call_panic_error_count, call_panic_printed. exact Hs.
Qed.

Lemma generate_any_current_counts_errors as_ panic_c msg s :
  counts_errors s -> counts_errors (generate_any_current as_ panic_c msg s).
Proof.
  intros Hs. unfold generate_any_current.
  apply (generate_any_counts_errors as_ _ panic_c msg s Hs).
Qed.

Lemma panic_consume_semicolon_stops s :
  current_tkn (panic_consume_semicolon s) = TKN_SEMICOLON
  \/ current_tkn (panic_consume_semicolon s) = TKN_EOF.
Proof.
  unfold panic_consume_semicolon, panic_consume.
  pose proof (skip_until_stops (fun tkn => tkn ==? TKN_SEMICOLON)
                (current_tkn s) (pending (lexer s))) as H.
  destruct (skip_until _ _ _) as [tkn rest]. simpl.
  destruct H as [H|H]; [left|right; exact H].
  apply bool_decide_eq_true_1 in H. exact H.
Qed.

(** X11.  The error counter tracks the error diagnostics: if the counter
    equals the number of error diagnostics printed so far (modulo the width
    of the counter), it still does after [generate_any],
    [generate_any_current], either [check_and_consume], and
    [parse_parenthesis] around any method that keeps the agreement. *)
Theorem X11_error_counter_tracks_diagnostics (s : ASTMaker)
    (Hs : counts_errors s) :
  (forall as_ info panic_c msg,
     counts_errors (generate_any as_ info panic_c msg s))
  /\ (forall as_ panic_c msg,
        counts_errors (generate_any_current as_ panic_c msg s))
  /\ (forall expected msg,
        counts_errors (snd (check_and_consume expected msg s)))
  /\ (forall expected panic msg,
        counts_errors (snd (check_and_consume_with expected panic msg s)))
  /\ (forall (RetT : Type) (method_ptr : ASTMaker -> RetT * ASTMaker),
        (forall s', counts_errors s' -> counts_errors (snd (method_ptr s'))) ->
        counts_errors (snd (parse_parenthesis method_ptr s))).
Proof.
  assert (Hcheck : forall expected msg,
             counts_errors (snd (check_and_consume expected msg s))).
  { intros expected msg. unfold check_and_consume.
    destruct (current_tkn s ==? expected); cbn [snd].
    - apply consume_current_tkn_counts_errors, Hs.
    - apply generate_any_current_counts_errors, Hs. }
  split; [|split; [|split; [|split]]].
  - intros. apply generate_any_counts_errors, Hs.
  - intros. apply generate_any_current_counts_errors, Hs.
  - exact Hcheck.
  - intros expected panic msg. unfold check_and_consume_with.
    destruct (current_tkn s ==? expected); cbn [snd].
    + apply consume_current_tkn_counts_errors, Hs.
    + apply generate_any_current_counts_errors, Hs.
  - intros RetT method_ptr Hm. unfold parse_parenthesis.
    pose proof (Hcheck TKN_LEFT_PAREN "Expected a '('!"%string) as H1.
    destruct (check_and_consume TKN_LEFT_PAREN _ s) as [invalid s1].
    cbn [snd] in H1. pose proof (Hm s1 H1) as H2.
    destruct (method_ptr s1) as [to_ret s2]. cbn [snd] in H2.
    destruct (negb _); cbn [snd].
    + apply generate_any_counts_errors, H2.
    + apply consume_current_tkn_counts_errors, H2.
Qed.

Lemma X11_error_counter_tracks_diagnostics_witness :
  counts_errors
    (generate_any ERROR (mkSrcInfo 1 1 "" "") null_method "oops"
                  (fresh_builder (mkLexer [] 1 "" "") TKN_EOF)).
Proof.
  exact (proj1 (X11_error_counter_tracks_diagnostics
                  (fresh_builder (mkLexer [] 1 "" "") TKN_EOF)
                  (fresh_builder_counts_errors _ _))
               ERROR (mkSrcInfo 1 1 "" "") null_method "oops"%string).
Defined.

Lemma generate_all_printed reports : forall s,
  length (printed (generate_all reports s))
  = (length (printed s) + length reports)%nat.
Proof.
  induction reports as [|r rest IH]; intros s; simpl; [lia|].
  rewrite IH. unfold generate_any.
  rewrite call_panic_printed, report_printed, length_app. simpl. lia.
Qed.

Lemma generate_all_error_count reports : forall s,
  0 <= error_count s < 2 ^ 16 ->
  error_count (generate_all reports s)
  = (error_count s + Z.of_nat (count_error_reports reports)) mod 2 ^ 16.
Proof.
  induction reports as [|r rest IH]; intros s Hs; simpl.
  - rewrite Z.add_0_r. symmetry. apply Z.mod_small. exact Hs.
  - destruct (rep_as r) eqn:Ea.
    + rewrite IH.
      * unfold generate_any.
        rewrite call_panic_error_count, report_error_count.
        unfold u16_incr. rewrite Zplus_mod_idemp_l. f_equal. lia.
      * unfold generate_any.
        rewrite call_panic_error_count, report_error_count.
        apply u16_incr_range.
    + rewrite IH; unfold generate_any;
        rewrite call_panic_error_count, report_error_count; [reflexivity|exact Hs].
    + rewrite IH; unfold generate_any;
        rewrite call_panic_error_count, report_error_count; [reflexivity|exact Hs].
Qed.

Lemma count_error_reports_repeat (r : Report) (n : nat) :
  rep_as r = ERROR -> count_error_reports (repeat r n) = n.
Proof.
  intros Hr. induction n as [|n IH]; simpl; [reflexivity|].
  rewrite Hr, IH. reflexivity.
Qed.

(** X12.  After a sequence of reports the error count is the count before
    plus the number of error reports, modulo 2^16 (the counter is a [u16]),
    while one diagnostic is printed per report.  In particular, after 65536
    error reports on a fresh builder [get_error_count()] is 0 again. *)
Theorem X12_error_count_after_reports (reports : list Report) (s : ASTMaker)
    (Hrange : 0 <= error_count s < 2 ^ 16) :
  get_error_count (generate_all reports s)
  = (error_count s + Z.of_nat (count_error_reports reports)) mod 2 ^ 16
  /\ length (printed (generate_all reports s))
     = (length (printed s) + length reports)%nat
  /\ (forall (r : Report) lex tkn,
        rep_as r = ERROR ->
        get_error_count
          (generate_all (repeat r (Z.to_nat (2 ^ 16))) (fresh_builder lex tkn))
        = 0).
Proof.
  split; [|split].
  - apply generate_all_error_count, Hrange.
  - apply generate_all_printed.
  - intros r lex tkn Hr. unfold get_error_count.
    rewrite generate_all_error_count by (simpl; lia).
    rewrite count_error_reports_repeat by exact Hr.
    rewrite Z2Nat.id by lia. reflexivity.
Qed.

Lemma X12_error_count_after_reports_witness :
  let r := mkReport ERROR (mkSrcInfo 1 1 "" "") null_method "oops" in
  let s := fresh_builder (mkLexer [] 1 "" "") TKN_EOF in
  0 <= error_count s < 2 ^ 16
  /\ get_error_count (generate_all [r; r] s) = 2.
Proof.
  intros r s.
  assert (H : 0 <= error_count s < 2 ^ 16) by (simpl; lia).
  split; [exact H|].
  exact (proj1 (X12_error_count_after_reports [r; r] s H)).
Defined.

(** X13.  [check_and_consume] returns false exactly when the current token is
    the expected one; it then consumes that token, reports nothing and leaves
    the error count alone.  Otherwise it returns true, prints one error
    diagnostic carrying the message, and the error count becomes the count
    before plus one, modulo 2^16. *)
Theorem X13_check_and_consume (expected : Token) (msg : string) (s : ASTMaker) :
  let invalid := fst (check_and_consume expected msg s) in
  let s' := snd (check_and_consume expected msg s) in
  invalid = negb (current_tkn s ==? expected)
  /\ (current_tkn s = expected ->
      invalid = false /\ s' = consume_current_tkn s
      /\ printed s' = printed s /\ error_count s' = error_count s)
  /\ (current_tkn s <> expected ->
      invalid = true
      /\ error_count s' = (error_count s + 1) mod 2 ^ 16
      /\ (exists d, printed s' = printed s ++ [d]
                    /\ severity d = ERROR /\ text d = msg)).
Proof.
  unfold check_and_consume. split; [|split].
  - destruct (current_tkn s ==? expected); reflexivity.
  - intros ->. rewrite ExprEquality.eqb_of_refl. cbn [fst snd negb].
    change (consume_current_tkn s) with (call_panic ptr_consume_current_tkn s).
    rewrite call_panic_printed, call_panic_error_count. auto.
  - intros Hne. rewrite ExprEquality.eqb_of_ne by exact Hne. cbn [fst snd negb].
    unfold generate_any_current.
    rewrite call_panic_error_count, call_panic_printed, report_error_count,
      report_printed. unfold u16_incr.
    split; [reflexivity|]. split; [reflexivity|].
    eexists. split; [reflexivity|]. split; reflexivity.
Qed.

(** X14.  [parse_parenthesis] always runs the method, on the state left by
    the check of the opening parenthesis, and returns its result.  When the
    current token is ['('] and the method stops on [')'], both parentheses
    are consumed and nothing is reported; when the method stops elsewhere,
    one error diagnostic is added to those of the method and the error count
    becomes the count the method left plus one, modulo 2^16. *)
Theorem X14_parse_parenthesis {RetT : Type}
    (method_ptr : ASTMaker -> RetT * ASTMaker) (s : ASTMaker) :
  let s1 := snd (check_and_consume TKN_LEFT_PAREN "Expected a '('!" s) in
  let to_ret := fst (method_ptr s1) in
  let s2 := snd (method_ptr s1) in
  let s3 := snd (parse_parenthesis method_ptr s) in
  fst (parse_parenthesis method_ptr s) = to_ret
  /\ (current_tkn s = TKN_LEFT_PAREN -> s1 = consume_current_tkn s)
  /\ (current_tkn s2 = TKN_RIGHT_PAREN ->
      s3 = consume_current_tkn s2
      /\ printed s3 = printed s2 /\ error_count s3 = error_count s2)
  /\ (current_tkn s2 <> TKN_RIGHT_PAREN ->
      error_count s3 = (error_count s2 + 1) mod 2 ^ 16
      /\ (exists d, printed s3 = printed s2 ++ [d] /\ severity d = ERROR
                    /\ text d = "Unclosed parenthesis delimiter!"%string)).
Proof.
  unfold parse_parenthesis.
  destruct (check_and_consume TKN_LEFT_PAREN _ s) as [invalid s1] eqn:Ec.
  destruct (method_ptr s1) as [to_ret s2] eqn:Em. cbn [fst snd].
  rewrite Em. cbn [fst snd].
  split; [|split; [|split]].
  - destruct (negb _); reflexivity.
  - intros Hl. unfold check_and_consume in Ec.
    rewrite Hl, ExprEquality.eqb_of_refl in Ec. injection Ec as _ <-.
    reflexivity.
  - intros ->. rewrite ExprEquality.eqb_of_refl. cbn [fst snd negb].
    change (consume_current_tkn s2) with (call_panic ptr_consume_current_tkn s2).
    rewrite call_panic_printed, call_panic_error_count. auto.
  - intros Hne. rewrite ExprEquality.eqb_of_ne by exact Hne. cbn [fst snd negb].
    unfold generate_any.
    rewrite call_panic_error_count, call_panic_printed, report_error_count,
      report_printed. unfold u16_incr.
    split; [reflexivity|].
    eexists. split; [reflexivity|]. split; reflexivity.
Qed.

(** * The result of [CreateAST] *)

Lemma generate_all_count_errors reports : forall s,
  count_errors (printed (generate_all reports s))
  = (count_errors (printed s) + count_error_reports reports)%nat.
Proof.
  induction reports as [|r rest IH]; intros s; cbn [generate_all].
  - cbn [count_error_reports]. lia.
  - rewrite IH. unfold generate_any.
    rewrite call_panic_printed, report_printed, count_errors_snoc.
    cbn [severity count_error_reports]. destruct (rep_as r); lia.
Qed.

Lemma generate_all_counts_errors reports : forall s,
  counts_errors s -> counts_errors (generate_all reports s).
Proof.
  induction reports as [|r rest IH]; intros s Hs; cbn [generate_all].
  - exact Hs.
  - apply IH, generate_any_counts_errors, Hs.
Qed.

Lemma reporting_run_counts_errors reports exprs from ctx :
  counts_errors (fst (reporting_run reports exprs from ctx)).
Proof.
  unfold reporting_run, counts_errors. cbn [fst error_count printed].
  apply (generate_all_counts_errors reports), fresh_builder_counts_errors.
Qed.

(** A run that reports [n] errors, [n] a multiple of 2^16, ends with the
    error count at zero and makes [CreateAST] return an AST. *)
Lemma errors_lost_by_wrap (n : nat) :
  Z.of_nat n mod 2 ^ 16 = 0 ->
  Z.of_nat (count_errors (printed
     (fst (reporting_run (repeat error_report n) [] EmptyString (mkContext [])))))
  = Z.of_nat n
  /\ error_count
       (fst (reporting_run (repeat error_report n) [] EmptyString (mkContext [])))
     = 0
  /\ is_expected
       (CreateAST (reporting_run (repeat error_report n) []) EmptyString
                  (mkContext [])) = true.
Proof.
  intros Hn.
  pose proof (reporting_run_counts_errors (repeat error_report n) []
                EmptyString (mkContext [])) as Hc.
  unfold counts_errors in Hc. unfold CreateAST.
  destruct (reporting_run (repeat error_report n) [] EmptyString (mkContext []))
    as [ast ctx'] eqn:Er.
  cbn [fst] in *.
  assert (Hp : count_errors (printed ast) = n).
  { unfold reporting_run in Er. injection Er as <- _. cbn [printed].
    rewrite generate_all_count_errors.
    rewrite count_error_reports_repeat by reflexivity. reflexivity. }
  rewrite Hp in *. split; [reflexivity|].
  rewrite Hn in Hc. split; [exact Hc|].
  unfold get_error_count. rewrite Hc. reflexivity.
Qed.




End ASTBuilderProperties.

(** * Properties of the command line arguments *)

Module ArgsProperties.
Import Args.

(** X15.  The table of predefined arguments is unambiguous: the seventeen
    names are pairwise distinct, so are the abbreviations, and no spelling
    [--name] or [-abrv] designates two arguments; each argument has a
    callback of its own, and only [help] and [out] take a value. *)
Theorem X15_predefined_arguments_unambiguous :
  length PredefinedArguments = 17%nat
  /\ NoDup (map name PredefinedArguments)
  /\ NoDup (map abrv PredefinedArguments)
  /\ NoDup (concat (map spellings PredefinedArguments))
  /\ NoDup (map callback PredefinedArguments)
  /\ (forall a, a ∈ PredefinedArguments ->
        (nb_of_args a <= 1)%nat
        /\ (nb_of_args a = 1%nat <-> name a = "help"%string \/ name a = "out"%string)).
Proof.
  split; [reflexivity|].
  do 4 (split; [apply (bool_decide_unpack _); vm_compute; exact I|]).
  intros a Ha. unfold PredefinedArguments in Ha.
  repeat (apply elem_of_cons in Ha as [->|Ha];
          [simpl; split;
             [lia
             |split; [first [intros H; discriminate H | intros _; auto]
                     |first [intros [H|H]; discriminate H
                            | intros _; reflexivity]]]|]).
  inversion Ha.
Qed.

End ArgsProperties.

(** * Properties of pointer types and of function definitions *)

Module NodeProperties.
Import ColtTypes ColtTypeFactories TypeEquality.

(** X16.  Pointer types are compared through their pointees, const flag of
    the pointee included: the const flags of the two pointers themselves are
    ignored; pointees with different const flags make the pointers unequal
    without the pointees being compared; pointees with the same flag are
    compared by [is_equal], the argument's pointee being the receiver.  So a
    pointer to [u8] is not equal to a pointer to [const u8], although [u8]
    is equal to [const u8]. *)
Theorem X16_pointer_equality_is_const_sensitive
    (b_const a_const : bool) (b_to a_to : ColtType) :
  is_equal (CreatePtr b_const b_to) (CreatePtr a_const a_to)
  = (if Bool.eqb (is_const a_to) (is_const b_to)
     then is_equal a_to b_to
     else Returns false)
  /\ is_equal (CreatePtr b_const b_to) (CreatePtr a_const a_to)
     = is_equal (CreatePtr (negb b_const) b_to) (CreatePtr (negb a_const) a_to)
  /\ (forall (I F B : list BinaryOperator) (id : BuiltInID),
        is_equal (factory_of I F B id false) (factory_of I F B id true)
        = Returns true
        /\ is_equal (CreatePtr b_const (factory_of I F B id false))
                    (CreatePtr a_const (factory_of I F B id true))
           = Returns false).
Proof.
  unfold CreatePtr. split; [|split].
  - rewrite is_equal_ptr. unfold is_equal_with_const, is_equal_with_const_by.
    destruct (Bool.eqb _ _); reflexivity.
  - rewrite !is_equal_ptr. reflexivity.
  - intros I F B id. destruct id; split; reflexivity.
Qed.

(** The returns registered one after the other into a function definition. *)
Lemma push_returns (rs : list PTR_Expr) : forall e : FnDefExpr.t,
  let e' := fold_left (fun e r => FnDefExpr.push_return r e) rs e in
  FnDefExpr.get_return_list e' = FnDefExpr.get_return_list e ++ rs
  /\ FnDefExpr.get_name e' = FnDefExpr.get_name e
  /\ FnDefExpr.get_params_name e' = FnDefExpr.get_params_name e
  /\ FnDefExpr.get_body e' = FnDefExpr.get_body e.
Proof.
  induction rs as [|r rs IH]; intros e; simpl.
  - rewrite app_nil_r. auto.
  - destruct (IH (FnDefExpr.push_return r e)) as (H1 & H2 & H3 & H4).
    rewrite H1, H2, H3, H4. simpl. rewrite <- app_assoc. auto.
Qed.

(** X17.  The returns registered into a function definition with
    [push_return] are read back by [get_return_list] in the order of
    registration, starting from none; neither registering returns nor
    [set_body] changes the name or the parameter names, [set_body] keeps the
    registered returns, and [get_body] reads the body set last. *)
Theorem X17_fn_def_registered_returns
    (name : StringView) (arguments_name : list StringView)
    (body body' : PTR_Expr) (rs : list PTR_Expr) :
  let e := fold_left (fun e r => FnDefExpr.push_return r e) rs
                     (FnDefExpr.new name arguments_name body) in
  FnDefExpr.get_return_list e = rs
  /\ FnDefExpr.get_name e = name
  /\ FnDefExpr.get_params_name e = arguments_name
  /\ FnDefExpr.get_body e = body
  /\ FnDefExpr.get_return_list (FnDefExpr.set_body body' e) = rs
  /\ FnDefExpr.get_body (FnDefExpr.set_body body' e) = body'
  /\ FnDefExpr.get_name (FnDefExpr.set_body body' e) = name
  /\ FnDefExpr.get_params_name (FnDefExpr.set_body body' e) = arguments_name.
Proof.
  intros e.
  destruct (push_returns rs (FnDefExpr.new name arguments_name body))
    as (H1 & H2 & H3 & H4).
  fold e in H1, H2, H3, H4. simpl in H1, H2, H3, H4.
  unfold FnDefExpr.set_body. simpl.
  change (FnDefExpr.return_list e) with (FnDefExpr.get_return_list e).
  change (FnDefExpr.name e) with (FnDefExpr.get_name e).
  change (FnDefExpr.arguments_name e) with (FnDefExpr.get_params_name e).
  rewrite H1, H2, H3, H4. repeat split.
Qed.

End NodeProperties.
